(** * CopyCaprice: the trade-tweet relay of [bot.py]

    A shallow embedding of the single-pass pipeline of [bot.py]
    (gate, dedupe store, timeline fetch, media filter, classifier,
    rewriter, publisher, orchestrator) together with the properties its
    specification states about it.

    Modelling conventions.
    - A Python [str] that the program looks into (post texts, prompts,
      model answers, response bodies) is a [text]: the list of its code
      points.  [strip] removes what [str.isspace] calls whitespace in all
      of Unicode; [lower] is concrete on ASCII and takes the case mapping
      of every other code point from the interpreter's Unicode database,
      which is part of the surroundings of a run.  Identifiers (post ids,
      media keys, media types) are only compared and stay [string]s.
    - The JSON objects of the timeline API are records whose optional keys
      are [option] fields, following the schema of the v2 timeline endpoint
      (every post carries [id] and [text], every media item [media_key]);
      a response body that is no object is a [JsonValue] of another kind.
    - The set of processed ids is a [gset string]; the state file, when
      there is one, holds a JSON array of strings, as [save_processed]
      writes it.
    - Everything outside the process (clock, state file, the two HTTP
      endpoints, the text-generation model, standard output) lives in a
      [World]; the functions of [bot.py] that touch it are computations in
      a state-and-exception monad [M] over [World].  An HTTP call answers
      or raises, decoding a body gives a JSON value or raises, and the
      text-generation call returns or raises; only the last is caught by
      the source. *)

From Stdlib Require Import ZArith NArith Ascii String.
From stdpp Require Import gmap strings list.

Local Open Scope Z_scope.

(* ===================================================================== *)
(** ** Wall-clock timestamps ([datetime]) *)
(* ===================================================================== *)

Module Datetime.

(** An aware [datetime] in the zone it was asked for; two values built
    from one another with [replace] share their [tzinfo], so they compare
    by their wall-clock fields. *)
Record datetime := mk {
  year : Z; month : Z; day : Z;
  hour : Z; minute : Z; second : Z; microsecond : Z
}.

Definition _is_leap (y : Z) : bool :=
  (y mod 4 =? 0) && (negb (y mod 100 =? 0) || (y mod 400 =? 0)).

Definition _days_before_year (y : Z) : Z :=
  let y1 := y - 1 in
  y1 * 365 + y1 / 4 - y1 / 100 + y1 / 400.

Definition _DAYS_BEFORE_MONTH : list Z :=
  [-1; 0; 31; 59; 90; 120; 151; 181; 212; 243; 273; 304; 334].

Definition _days_before_month (y m : Z) : Z :=
  nth (Z.to_nat m) _DAYS_BEFORE_MONTH 0
  + (if (2 <? m) && _is_leap y then 1 else 0).

Definition toordinal (d : datetime) : Z :=
  _days_before_year (year d) + _days_before_month (year d) (month d) + day d.

(** Monday is 0, Sunday is 6. *)
Definition weekday (d : datetime) : Z := (toordinal d + 6) mod 7.

(** [d.replace(hour=h, minute=mi, second=s, microsecond=us)] *)
Definition replace (d : datetime) (h mi s us : Z) : datetime :=
  {| year := year d; month := month d; day := day d;
     hour := h; minute := mi; second := s; microsecond := us |}.

(** Lexicographic order on the seven fields, as [datetime] compares. *)
Definition cmp (a b : datetime) : comparison :=
  match year a ?= year b with Eq =>
  match month a ?= month b with Eq =>
  match day a ?= day b with Eq =>
  match hour a ?= hour b with Eq =>
  match minute a ?= minute b with Eq =>
  match second a ?= second b with Eq =>
    microsecond a ?= microsecond b
  | c => c end | c => c end | c => c end
  | c => c end | c => c end | c => c end.

Definition le (a b : datetime) : bool :=
  match cmp a b with Gt => false | _ => true end.

(** The ranges the constructor of [datetime] enforces on the time part. *)
Definition valid_time (d : datetime) : Prop :=
  0 <= hour d < 24 /\ 0 <= minute d < 60 /\
  0 <= second d < 60 /\ 0 <= microsecond d < 1000000.

(** Microseconds since midnight. *)
Definition time_of_day (d : datetime) : Z :=
  ((hour d * 60 + minute d) * 60 + second d) * 1000000 + microsecond d.

End Datetime.

Import Datetime.

(* ===================================================================== *)
(** ** Text: [strip], [lower], [startswith] *)
(* ===================================================================== *)

(** A [str] as the list of its code points. *)
Definition text : Type := list N.

(** A literal of the source; the literals of [bot.py] are ASCII. *)
Definition u (s : string) : text := map N_of_ascii (list_ascii_of_string s).

Module Str.

(** [str.isspace] on one code point: TAB..CR, FS..US, the blank, NEL,
    NBSP, the Ogham space mark, EN QUAD..HAIR SPACE, the line and paragraph
    separators, the narrow no-break, medium mathematical and ideographic
    spaces. *)
Definition isspace (c : N) : bool :=
  ((9 <=? c) && (c <=? 13) || (28 <=? c) && (c <=? 32)
   || (c =? 133) || (c =? 160) || (c =? 5760)
   || (8192 <=? c) && (c <=? 8202)
   || (c =? 8232) || (c =? 8233) || (c =? 8239) || (c =? 8287)
   || (c =? 12288))%N.

Fixpoint lstrip (s : text) : text :=
  match s with
  | c :: s' => if isspace c then lstrip s' else s
  | [] => []
  end.

Fixpoint rstrip (s : text) : text :=
  match s with
  | c :: s' =>
      match rstrip s' with
      | [] => if isspace c then [] else [c]
      | r => c :: r
      end
  | [] => []
  end.

Definition strip (s : text) : text := rstrip (lstrip s).

(** [str.lower] on an ASCII code point. *)
Definition lower_ascii (c : N) : N :=
  (if (65 <=? c) && (c <=? 90) then c + 32 else c)%N.

(** [str.lower]: an ASCII code point is mapped by [lower_ascii]; any other
    is mapped by the Unicode database [db], which sees the code points
    before and after it (the final sigma needs them) and may answer with
    more than one code point. *)
Fixpoint lower_from (db : text -> N -> text -> text) (before s : text) : text :=
  match s with
  | c :: s' =>
      (if (c <? 128)%N then [lower_ascii c] else db before c s')
      ++ lower_from db (before ++ [c]) s'
  | [] => []
  end.

Definition lower (db : text -> N -> text -> text) (s : text) : text :=
  lower_from db [] s.

Fixpoint startswith (s p : text) {struct p} : bool :=
  match p with
  | [] => true
  | c :: p' =>
      match s with
      | d :: s' => (c =? d)%N && startswith s' p'
      | [] => false
      end
  end.

Global Arguments startswith : simpl never.

(** Truth value of a [str]: every string but the empty one. *)
Definition truthy (s : text) : bool :=
  match s with [] => false | _ => true end.

End Str.

(* ===================================================================== *)
(** ** The timeline payload *)
(* ===================================================================== *)

(** An item of [includes["media"]]; [type] is read with [.get]. *)
Record MediaItem := {
  media_key : string;
  media_type : option string
}.

(** [tweet["attachments"]], whose [media_keys] key may be absent. *)
Record Attachments := {
  media_keys : option (list string)
}.

Record Tweet := {
  tweet_id : string;
  tweet_text : text;
  attachments : option Attachments
}.

(** [data["includes"]], whose [media] key may be absent. *)
Record Includes := {
  media : option (list MediaItem)
}.

(** The JSON object of a timeline response: the keys [data] and
    [includes] are optional, [other_keys] are whatever else the object
    holds ([meta], [errors], ...). *)
Record Timeline := {
  data : option (list Tweet);
  includes : option Includes;
  other_keys : list string
}.

(** Truth value of a [dict]: it has at least one key. *)
Definition dict_truthy (d : Timeline) : bool :=
  match data d, includes d, other_keys d with
  | None, None, [] => false
  | _, _, _ => true
  end.

(** What [r.json()] may hand back.  Of a number only its being zero
    matters here, of an array only its length. *)
Inductive JsonValue :=
| JNull
| JBool (b : bool)
| JNumber (zero : bool)
| JString (s : text)
| JArray (len : nat)
| JObject (d : Timeline).

(** Truth value, as [if not data] takes it. *)
Definition json_truthy (v : JsonValue) : bool :=
  match v with
  | JNull => false
  | JBool b => b
  | JNumber zero => negb zero
  | JString s => Str.truthy s
  | JArray len => negb (Nat.eqb len 0)
  | JObject d => dict_truthy d
  end.

(** The body of a response, decoded: JSON or not. *)
Inductive decoded :=
| Json (v : JsonValue)
| NotJson.

(** A [requests] response. *)
Record Response := {
  status_code : Z;
  response_text : text;
  json : decoded
}.

(** What a call of [requests.get] or [requests.post] comes to. *)
Inductive reply :=
| Replied (r : Response)
| Failed.

(* ===================================================================== *)
(** ** The outside world and the monad of effects *)
(* ===================================================================== *)

(** Diagnostics written with [print], one constructor per call site. *)
Inductive message :=
| MsgWeekend
| MsgOutsideRTH (now : datetime)
| MsgLoaded (n : nat)
| MsgFetchError (body : text)
| MsgClassifyError
| MsgRewriteError
| MsgPosting (body : text)
| MsgPostError (body : text)
| MsgSkipImages (tid : string)
| MsgSkipNotTrade (tid : string)
| MsgSkipRewrite (tid : string)
| MsgPosted (tid : string)
| MsgPostFailed (tid : string)
| MsgDone.

(** What a run does to its surroundings, in the order it does it.  A
    request is an event whether it is answered or raises. *)
Inductive event :=
| Stdout (m : message)
| TimelineGet
| GenerateContent (prompt : text)
| TweetCreate (body : text)
| FileDump (ids : list string).

(** Outcome of [model.generate_content(prompt)] followed by [.text]. *)
Inductive generated :=
| Returned (answer : text)
| Raised.

(** The exceptions that no [try] of the source catches. *)
Inductive exn :=
| RequestException        (* [requests.get], [requests.post] *)
| JSONDecodeError         (* [r.json()] on a body that is no JSON *)
| AttributeError.         (* [data.get] on a value that is no [dict] *)

Inductive result (A : Type) :=
| Ok (a : A)
| Raise (e : exn).

Arguments Ok {A} a.
Arguments Raise {A} e.

(** The surroundings of a run.  The services answer as a function of
    everything that happened before the call, so that two calls with the
    same argument need not agree. *)
Record World := {
  clock : datetime;                          (* datetime.now(eastern) *)
  processed_file : option (list string);     (* processed_tweets.json *)
  trace : list event;
  unicode_lower : text -> N -> text -> text; (* case mapping beyond ASCII *)
  timeline_api : reply;                      (* GET /2/users/:id/tweets *)
  tweets_api : list event -> text -> reply;  (* POST /2/tweets *)
  model : list event -> text -> generated
}.

Definition M (A : Type) : Type := World -> result A * World.

Global Instance M_ret : MRet M := fun A (a : A) w => (Ok a, w).

Global Instance M_bind : MBind M := fun A B (k : A -> M B) (m : M A) w =>
  match m w with
  | (Ok a, w') => k a w'
  | (Raise e, w') => (Raise e, w')
  end.

Definition raise {A} (e : exn) : M A := fun w => (Raise e, w).

(** [log evs w]: the world [w] after the events [evs] happened in it. *)
Definition log (evs : list event) (w : World) : World :=
  {| clock := clock w; processed_file := processed_file w;
     trace := trace w ++ evs; unicode_lower := unicode_lower w;
     timeline_api := timeline_api w; tweets_api := tweets_api w;
     model := model w |}.

(** [store ids w]: the world [w] with [ids] as the content of the state file. *)
Definition store (ids : list string) (w : World) : World :=
  {| clock := clock w; processed_file := Some ids;
     trace := trace w; unicode_lower := unicode_lower w;
     timeline_api := timeline_api w; tweets_api := tweets_api w;
     model := model w |}.

Definition emit (e : event) : M unit := fun w => (Ok tt, log [e] w).

Definition print (m : message) : M unit := emit (Stdout m).

Definition datetime_now : M datetime := fun w => (Ok (clock w), w).

Definition read_file : M (option (list string)) :=
  fun w => (Ok (processed_file w), w).

Definition write_file (ids : list string) : M unit := fun w =>
  (Ok tt, store ids (log [FileDump ids] w)).

Definition answer_of (r : reply) : result Response :=
  match r with
  | Replied r => Ok r
  | Failed => Raise RequestException
  end.

Definition requests_get : M Response := fun w =>
  (answer_of (timeline_api w), log [TimelineGet] w).

Definition requests_post (body : text) : M Response := fun w =>
  (answer_of (tweets_api w (trace w) body), log [TweetCreate body] w).

(** [r.json()] *)
Definition response_json (r : Response) : M JsonValue :=
  match json r with
  | Json v => mret v
  | NotJson => raise JSONDecodeError
  end.

Definition generate_content (prompt : text) : M generated := fun w =>
  (Ok (model w (trace w) prompt), log [GenerateContent prompt] w).

(** [s.lower()] with the Unicode database at hand. *)
Definition str_lower (s : text) : M text := fun w =>
  (Ok (Str.lower (unicode_lower w) s), w).

(* ===================================================================== *)
(** ** [bot.py] *)
(* ===================================================================== *)

(** Market open? (weekdays 09:30-16:00 ET) *)
Definition is_rth : M bool :=
  now ← datetime_now;
  if 5 <=? weekday now then
    print MsgWeekend;; mret false
  else
    let open_time := replace now 9 30 0 0 in
    let close_time := replace now 16 0 0 0 in
    if Datetime.le open_time now && Datetime.le now close_time then
      mret true
    else
      print (MsgOutsideRTH now);; mret false.

Definition load_processed : M (gset string) :=
  f ← read_file;
  match f with
  | None => mret ∅
  | Some l => mret (list_to_set l)
  end.

Definition save_processed (processed : gset string) : M unit :=
  write_file (elements processed).

(** [None] is Python's [None]; [Some v] is the decoded body. *)
Definition get_latest_tweets : M (option JsonValue) :=
  r ← requests_get;
  if negb (status_code r =? 200) then
    print (MsgFetchError (response_text r));; mret None
  else
    v ← response_json r;
    mret (Some v).

Definition has_images (tweet : Tweet) (incl : Includes) : bool :=
  match attachments tweet with
  | None => false
  | Some att =>
    match media_keys att with
    | None => false
    | Some keys =>
      match media incl with
      | None => false
      | Some ms =>
          existsb (fun m => bool_decide (media_key m ∈ keys)
                            && bool_decide (media_type m = Some "photo"%string)) ms
      end
    end
  end.

Definition classify_prompt (tweet_text : text) : text :=
  u "
You are a classifier. Determine if this tweet describes an options
trade execution. Respond with exactly:

trade
or
not trade

Tweet:
" ++ tweet_text ++ u "
".

Definition classify_trade (tweet_text : text) : M text :=
  result ← generate_content (classify_prompt tweet_text);
  match result with
  | Returned answer =>
      ans ← str_lower (Str.strip answer);
      mret (if Str.startswith ans (u "trade") then u "trade" else u "not trade")
  | Raised =>
      print MsgClassifyError;; mret (u "not trade")
  end.

Definition rewrite_prompt (tweet_text : text) : text :=
  u "
Rewrite this options execution tweet in an unprofessional, cute, format.

Rules:
- Preserve ticker, strike, expiry, and pricing details.
- Remove slang and emojis.
- Make the execution clear.

Original:
" ++ tweet_text ++ u "
".

Definition rewrite_tweet (tweet_text : text) : M (option text) :=
  result ← generate_content (rewrite_prompt tweet_text);
  match result with
  | Returned answer => mret (Some (Str.strip answer))
  | Raised => print MsgRewriteError;; mret None
  end.

Definition post_tweet (body : text) : M bool :=
  print (MsgPosting body);;
  r ← requests_post body;
  if negb (status_code r =? 201) then
    print (MsgPostError (response_text r));; mret false
  else
    mret true.

(** One iteration of the loop of [run]; [processed] is the set as the
    iteration finds it, the result the set as it leaves it. *)
Definition process_tweet (incl : Includes) (processed : gset string)
    (t : Tweet) : M (gset string) :=
  let tid := tweet_id t in
  let txt := tweet_text t in
  if bool_decide (tid ∈ processed) then
    mret processed
  else if has_images t incl then
    print (MsgSkipImages tid);;
    mret (processed ∪ {[tid]})
  else
    label ← classify_trade txt;
    if negb (bool_decide (label = u "trade")) then
      print (MsgSkipNotTrade tid);;
      mret (processed ∪ {[tid]})
    else
      rewritten ← rewrite_tweet txt;
      match rewritten with
      | Some body =>
          if Str.truthy body then
            posted ← post_tweet body;
            (if posted : bool then print (MsgPosted tid)
             else print (MsgPostFailed tid));;
            mret (processed ∪ {[tid]})
          else
            print (MsgSkipRewrite tid);;
            mret (processed ∪ {[tid]})
      | None =>
          print (MsgSkipRewrite tid);;
          mret (processed ∪ {[tid]})
      end.

(** [for t in tweets: ...] *)
Fixpoint process_all (incl : Includes) (processed : gset string)
    (tweets : list Tweet) : M (gset string) :=
  match tweets with
  | [] => mret processed
  | t :: rest =>
      processed' ← process_tweet incl processed t;
      process_all incl processed' rest
  end.

(** Truth value of what [get_latest_tweets] returns. *)
Definition fetched_truthy (fetched : option JsonValue) : bool :=
  match fetched with
  | None => false
  | Some v => json_truthy v
  end.

Definition run : M unit :=
  open ← is_rth;
  if negb open then mret tt
  else
    processed ← load_processed;
    print (MsgLoaded (size processed));;
    fetched ← get_latest_tweets;
    if negb (fetched_truthy fetched) then mret tt
    else
      match fetched with
      | Some (JObject d) =>
          let tweets := default [] (data d) in
          let incl := default {| media := None |} (includes d) in
          processed' ← process_all incl processed tweets;
          save_processed processed';;
          print MsgDone
      | _ => raise AttributeError
      end.

(* ===================================================================== *)
(** ** Observing a run *)
(* ===================================================================== *)

(** The events that happened between the world [w] and the later [w']. *)
Definition emitted (w w' : World) : list event :=
  drop (length (trace w)) (trace w').

Definition is_save (e : event) : bool :=
  match e with FileDump _ => true | _ => false end.

Definition is_publish (e : event) : bool :=
  match e with TweetCreate _ => true | _ => false end.

Definition is_generate (e : event) : bool :=
  match e with GenerateContent _ => true | _ => false end.

(** A call to one of the three services. *)
Definition is_call (e : event) : bool :=
  match e with Stdout _ | FileDump _ => false | _ => true end.

Definition count (p : event -> bool) (evs : list event) : nat :=
  length (filter (fun e => p e = true) evs).

(** The ids of a batch, in the order fetched. *)
Definition ids_of (tweets : list Tweet) : list string := map tweet_id tweets.

(** The set a world has on file, as [load_processed] reads it. *)
Definition persisted (w : World) : gset string :=
  match fst (load_processed w) with
  | Ok processed => processed
  | Raise _ => ∅
  end.

(** The JSON object that a world's timeline endpoint answers with under
    status 200, if it does. *)
Definition fetched_object (w : World) : option Timeline :=
  match timeline_api w with
  | Replied r =>
      if status_code r =? 200 then
        match json r with
        | Json (JObject d) => Some d
        | _ => None
        end
      else None
  | Failed => None
  end.

(** The batch in it, as [run] reads it, *)
Definition batch (w : World) : list Tweet :=
  default [] (d ← fetched_object w; data d).

(** and the includes payload that goes with it. *)
Definition batch_includes (w : World) : Includes :=
  default {| media := None |} (d ← fetched_object w; includes d).

(** The world in which the loop of [run] starts. *)
Definition loop_start (w : World) : World :=
  log [Stdout (MsgLoaded (size (persisted w))); TimelineGet] w.

(** The loop of [run] gets through the batch: no publish request raises. *)
Definition loop_returns (w : World) : Prop :=
  exists processed,
    fst (process_all (batch_includes w) (persisted w) (batch w) (loop_start w))
    = Ok processed.

(** The fetch hands [run] an object that it takes for a payload. *)
Definition fetch_yields (w : World) : Prop :=
  exists d, fetched_object w = Some d /\ dict_truthy d = true.

(** The run gets as far as [save_processed]: the gate is open, the fetch
    yields a payload, and the loop gets through the batch. *)
Definition reaches_save (w : World) : Prop :=
  fst (is_rth w) = Ok true /\ fetch_yields w /\ loop_returns w.

(** Nothing but diagnostics and the timeline request. *)
Definition is_quiet (e : event) : bool :=
  match e with Stdout _ | TimelineGet => true | _ => false end.

(** The publisher answers every request, with whatever status. *)
Definition publisher_answers (w : World) : Prop :=
  forall history body, tweets_api w history body <> Failed.

(** The world [w] at another time, with another file. *)
Definition at_time (now : datetime) (w : World) : World :=
  {| clock := now; processed_file := processed_file w; trace := trace w;
     unicode_lower := unicode_lower w;
     timeline_api := timeline_api w; tweets_api := tweets_api w;
     model := model w |}.

Definition with_file (f : option (list string)) (w : World) : World :=
  {| clock := clock w; processed_file := f; trace := trace w;
     unicode_lower := unicode_lower w;
     timeline_api := timeline_api w; tweets_api := tweets_api w;
     model := model w |}.

Definition is_fetch (e : event) : bool :=
  match e with TimelineGet => true | _ => false end.

(** Nothing but whitespace (the empty text included). *)
Definition blank (s : text) : bool := forallb Str.isspace s.

(** Neither the first nor the last code point is whitespace. *)
Definition trimmed (s : text) : bool :=
  match s with
  | [] => true
  | c :: s' => negb (Str.isspace c) && negb (Str.isspace (List.last s' c))
  end.

(** The texts handed to the publisher, in order. *)
Definition published (evs : list event) : list text :=
  omap (fun e => match e with TweetCreate body => Some body | _ => None end) evs.

(** What the loop of [run] may do while it works through [tweets] with
    the model [mdl] at hand: print, ask the model, and publish the
    stripped, non-empty answer to the rewrite prompt of one of the posts. *)
Definition loop_event (mdl : list event -> text -> generated)
    (tweets : list Tweet) (e : event) : Prop :=
  match e with
  | Stdout _ => True
  | GenerateContent prompt =>
      exists t, t ∈ tweets /\
        (prompt = classify_prompt (tweet_text t) \/
         prompt = rewrite_prompt (tweet_text t))
  | TweetCreate body =>
      body <> [] /\
      exists t history answer,
        t ∈ tweets /\
        mdl history (rewrite_prompt (tweet_text t)) = Returned answer /\
        body = Str.strip answer
  | TimelineGet | FileDump _ => False
  end.

(** How an iteration ends: with the post marked, or with the exception of
    a publish request that got no answer. *)
Definition marked_or_raised (processed : gset string) (t : Tweet) (w : World)
    (evs : list event) (r : result (gset string)) : Prop :=
  r = Ok (processed ∪ {[tweet_id t]}) \/
  (r = Raise RequestException /\ (tweet_id t ∉ processed) /\
   exists asked body,
     evs = asked ++ [TweetCreate body] /\
     tweets_api w (trace w ++ asked) body = Failed).

(* ===================================================================== *)
(** ** Sample worlds *)
(* ===================================================================== *)

Module Sample.

(** Monday 2024-01-01, 10:00 ET, and the Saturday after. *)
Definition monday_morning : datetime := Datetime.mk 2024 1 1 10 0 0 0.
Definition saturday_noon : datetime := Datetime.mk 2024 1 6 12 0 0 0.

(** The case mapping of Latin-1: the capitals from U+00C0 to U+00DE, the
    multiplication sign apart, are 32 below their small letters. *)
Definition latin1_lower (before : text) (c : N) (after : text) : text :=
  (if (192 <=? c) && (c <=? 222) && negb (c =? 215) then [c + 32] else [c])%N.

Definition plain_tweet : Tweet :=
  {| tweet_id := "1"; tweet_text := u "BTO AAPL 150C 6/20 @ 1.20";
     attachments := None |}.

Definition photo_tweet : Tweet :=
  {| tweet_id := "3"; tweet_text := u "BTO TSLA 200P, chart attached";
     attachments := Some {| media_keys := Some ["7_1"%string] |} |}.

Definition photo : MediaItem :=
  {| media_key := "7_1"; media_type := Some "photo"%string |}.

Definition with_photo : Includes := {| media := Some [photo] |}.

Definition payload : Timeline :=
  {| data := Some [plain_tweet; photo_tweet; plain_tweet];
     includes := Some with_photo;
     other_keys := ["meta"%string] |}.


(** A model that says "Trade" to the classifier and rewrites to [out]. *)
Definition answering (out : generated) (history : list event)
    (prompt : text) : generated :=
  if bool_decide (prompt = classify_prompt (tweet_text plain_tweet))
  then Returned (u " Trade
") else out.

Definition rewrite : text := u "Bought AAPL 150C exp 6/20 at 1.20".

Definition ok_timeline : reply :=
  Replied {| status_code := 200; response_text := [];
             json := Json (JObject payload) |}.

Definition refusing (history : list event) (body : text) : reply :=
  Replied {| status_code := 403; response_text := u "Forbidden";
             json := NotJson |}.

(** Gate open, ["2"] on file (twice), a payload of three posts, a model
    that rewrites, and a publisher that refuses. *)
Definition world : World :=
  {| clock := monday_morning;
     processed_file := Some ["2"; "2"]%string;
     trace := [];
     unicode_lower := latin1_lower;
     timeline_api := ok_timeline;
     tweets_api := refusing;
     model := answering (Returned rewrite) |}.

(** The same with a model whose rewrite is blank, or raises. *)
Definition with_model (out : generated) : World :=
  {| clock := monday_morning;
     processed_file := Some ["2"; "2"]%string;
     trace := [];
     unicode_lower := latin1_lower;
     timeline_api := ok_timeline;
     tweets_api := refusing;
     model := answering out |}.

(** The same with another answer of the timeline endpoint and no file. *)
Definition with_timeline (r : reply) : World :=
  {| clock := monday_morning;
     processed_file := None;
     trace := [];
     unicode_lower := latin1_lower;
     timeline_api := r;
     tweets_api := refusing;
     model := answering (Returned rewrite) |}.



(** The sample world with another publisher. *)
Definition with_publisher (api : list event -> text -> reply) : World :=
  {| clock := monday_morning;
     processed_file := Some ["2"; "2"]%string;
     trace := [];
     unicode_lower := latin1_lower;
     timeline_api := ok_timeline;
     tweets_api := api;
     model := answering (Returned rewrite) |}.

Definition accepting (history : list event) (body : text) : reply :=
  Replied {| status_code := 201; response_text := body; json := NotJson |}.


Definition accepting_world : World := with_publisher accepting.


(** A model that shouts its verdict, after a no-break space and with a
    second line. *)
Definition second_line : text := u "
(filled at 1.20)".

Definition loud_world : World :=
  {| clock := monday_morning;
     processed_file := None;
     trace := [];
     unicode_lower := latin1_lower;
     timeline_api := ok_timeline;
     tweets_api := refusing;
     model := fun _ _ => Returned ([160%N] ++ (u "TRADE" ++ second_line)) |}.

Definition no_media : Includes := {| media := None |}.

Definition video : MediaItem :=
  {| media_key := "13_2"; media_type := Some "video"%string |}.

(** The day after the sample run: its file, and two posts to meet. *)
Definition later_payload : Timeline :=
  {| data := Some [ {| tweet_id := "4"; tweet_text := u "gm";
                       attachments := None |};
                    photo_tweet ];
     includes := Some with_photo;
     other_keys := [] |}.

Definition later_world : World :=
  {| clock := Datetime.mk 2024 1 2 15 59 59 0;
     processed_file := Some ["3"; "1"; "2"]%string;
     trace := [];
     unicode_lower := latin1_lower;
     timeline_api :=
       Replied {| status_code := 200; response_text := [];
                  json := Json (JObject later_payload) |};
     tweets_api := refusing;
     model := fun _ _ => Raised |}.

End Sample.

(* ===================================================================== *)
(** ** Bookkeeping on worlds *)
(* ===================================================================== *)

Lemma log_nil w : log [] w = w.
Proof. destruct w. unfold log; simpl. by rewrite app_nil_r. Qed.

Lemma log_log evs1 evs2 w : log evs2 (log evs1 w) = log (evs1 ++ evs2) w.
Proof. unfold log; simpl. by rewrite app_assoc. Qed.

Lemma log_store evs ids w : log evs (store ids w) = store ids (log evs w).
Proof. reflexivity. Qed.


Lemma emitted_log w evs : emitted w (log evs w) = evs.
Proof. unfold emitted; simpl. by rewrite drop_app_length. Qed.

Lemma emitted_store_log w ids evs : emitted w (store ids (log evs w)) = evs.
Proof. unfold emitted; simpl. by rewrite drop_app_length. Qed.

Lemma count_nil p : count p [] = 0%nat.
Proof. reflexivity. Qed.

Lemma count_app p evs1 evs2 :
  count p (evs1 ++ evs2) = (count p evs1 + count p evs2)%nat.
Proof. unfold count. by rewrite filter_app, length_app. Qed.

Lemma count_none p evs :
  Forall (fun e => p e = false) evs -> count p evs = 0%nat.
Proof.
  unfold count. induction 1 as [|e evs He _ IH]; [done|].
  rewrite filter_cons_False; [done|]. by rewrite He.
Qed.

Lemma load_processed_pure w : load_processed w = (Ok (persisted w), w).
Proof.
  unfold persisted, load_processed, mbind, M_bind, read_file; simpl.
  by destruct (processed_file w).
Qed.

Lemma persisted_file w :
  persisted w = match processed_file w with
                | None => ∅
                | Some l => list_to_set l
                end.
Proof.
  unfold persisted, load_processed, mbind, M_bind, read_file; simpl.
  by destruct (processed_file w).
Qed.

Lemma persisted_store ids w : persisted (store ids w) = list_to_set ids.
Proof. by rewrite persisted_file. Qed.


Lemma persisted_ext w w' :
  processed_file w = processed_file w' -> persisted w = persisted w'.
Proof. intros E. by rewrite !persisted_file, E. Qed.

Lemma union_seen (X : gset string) (i : string) : i ∈ X -> X ∪ {[i]} = X.
Proof.
  intros Hi. apply set_eq. intros x.
  rewrite elem_of_union, elem_of_singleton.
  split; [intros [?| ->]; assumption|auto].
Qed.

Lemma size_union_new (X : gset string) (i : string) :
  i ∉ X -> size (X ∪ {[i]}) = S (size X).
Proof.
  intros Hi. rewrite size_union by (by apply disjoint_singleton_r).
  rewrite size_singleton. lia.
Qed.

(* ===================================================================== *)
(** ** The time gate *)
(* ===================================================================== *)

Section Gate.

Variable now : datetime.
Hypothesis valid : valid_time now.

Lemma le_open_time :
  Datetime.le (replace now 9 30 0 0) now = true <-> 34200000000 <= time_of_day now.
Proof using valid.
  destruct valid as (Hh & Hm & Hs & Hu).
  unfold Datetime.le, cmp, replace, time_of_day;
    cbn [year month day hour minute second microsecond].
  rewrite !Z.compare_refl.
  destruct (Z.compare_spec 9 (hour now));
    destruct (Z.compare_spec 30 (minute now));
    destruct (Z.compare_spec 0 (second now));
    destruct (Z.compare_spec 0 (microsecond now));
    split; intros; try done; lia.
Qed.

Lemma le_close_time :
  Datetime.le now (replace now 16 0 0 0) = true <-> time_of_day now <= 57600000000.
Proof using valid.
  destruct valid as (Hh & Hm & Hs & Hu).
  unfold Datetime.le, cmp, replace, time_of_day;
    cbn [year month day hour minute second microsecond].
  rewrite !Z.compare_refl.
  destruct (Z.compare_spec (hour now) 16);
    destruct (Z.compare_spec (minute now) 0);
    destruct (Z.compare_spec (second now) 0);
    destruct (Z.compare_spec (microsecond now) 0);
    split; intros; try done; lia.
Qed.

End Gate.

Lemma weekday_range now : 0 <= weekday now < 7.
Proof. unfold weekday. apply Z.mod_pos_bound. lia. Qed.

(** [is_rth] raises nothing, and what it answers is a function of the
    clock alone. *)
Lemma is_rth_answer w :
  fst (is_rth w) =
  Ok (negb (5 <=? weekday (clock w))
      && (Datetime.le (replace (clock w) 9 30 0 0) (clock w)
          && Datetime.le (clock w) (replace (clock w) 16 0 0 0))).
Proof.
  unfold is_rth, mbind, M_bind, datetime_now; simpl.
  destruct (5 <=? weekday (clock w)); simpl; [done|].
  by destruct (_ && _).
Qed.

Lemma is_rth_total w : fst (is_rth w) = Ok true \/ fst (is_rth w) = Ok false.
Proof. rewrite is_rth_answer. destruct (_ && _); auto. Qed.

(** When the gate is open, asking it leaves no mark on the world. *)
Lemma is_rth_open w : fst (is_rth w) = Ok true -> is_rth w = (Ok true, w).
Proof.
  unfold is_rth, mbind, M_bind, datetime_now; simpl.
  destruct (5 <=? weekday (clock w)); simpl; [done|].
  by destruct (_ && _).
Qed.

(** When it is closed, one diagnostic is all that happens. *)
Lemma is_rth_closed w :
  fst (is_rth w) = Ok false ->
  is_rth w
  = (Ok false,
     log [Stdout (if 5 <=? weekday (clock w) then MsgWeekend
                  else MsgOutsideRTH (clock w))] w).
Proof.
  unfold is_rth, mbind, M_bind, datetime_now, print, emit; simpl.
  destruct (5 <=? weekday (clock w)); simpl; [done|].
  by destruct (_ && _).
Qed.

(** C4 (gate boundary): at a Saturday or Sunday the gate is closed whatever
    the time of day; on a weekday it is open exactly when the time of day
    lies between 09:30:00 and 16:00:00, both ends included.  On Monday
    2024-01-01 it is closed at 09:29:59, open at 09:30:00 and at 16:00:00,
    closed at 16:00:01. *)
Theorem is_rth_gate_boundary (w : World) (Hv : valid_time (clock w)) :
  (fst (is_rth w) = Ok true <->
     weekday (clock w) < 5 /\
     34200000000 <= time_of_day (clock w) <= 57600000000)
  /\ (weekday (clock w) = 5 \/ weekday (clock w) = 6 ->
      fst (is_rth w) = Ok false)
  /\ (fst (is_rth w) = Ok true \/ fst (is_rth w) = Ok false)
  /\ (0 <= weekday (clock w) < 5 \/ weekday (clock w) = 5 \/ weekday (clock w) = 6)
  /\ weekday (Datetime.mk 2024 1 1 0 0 0 0) = 0
  /\ fst (is_rth (at_time (Datetime.mk 2024 1 1 9 29 59 0) w)) = Ok false
  /\ fst (is_rth (at_time (Datetime.mk 2024 1 1 9 30 0 0) w)) = Ok true
  /\ fst (is_rth (at_time (Datetime.mk 2024 1 1 16 0 0 0) w)) = Ok true
  /\ fst (is_rth (at_time (Datetime.mk 2024 1 1 16 0 1 0) w)) = Ok false
  /\ weekday Sample.saturday_noon = 5
  /\ fst (is_rth (at_time Sample.saturday_noon w)) = Ok false.
Proof.
  split; [|split; [|split; [|split]]].
  - rewrite is_rth_answer. split.
    + intros [= H]. revert H.
      rewrite !andb_true_iff, negb_true_iff, Z.leb_gt.
      rewrite (le_open_time _ Hv), (le_close_time _ Hv). tauto.
    + intros H. f_equal. revert H.
      rewrite !andb_true_iff, negb_true_iff, Z.leb_gt.
      rewrite (le_open_time _ Hv), (le_close_time _ Hv). tauto.
  - intros Hwe. rewrite is_rth_answer.
    replace (5 <=? weekday (clock w)) with true; [done|].
    symmetry. apply Z.leb_le. lia.
  - apply is_rth_total.
  - pose proof (weekday_range (clock w)). lia.
  - repeat split; rewrite ?is_rth_answer; reflexivity.
Qed.

Lemma sample_valid_time : valid_time (clock Sample.world).
Proof. repeat split; simpl; lia. Defined.

(** Monday 2024-01-01 at 10:00 is a weekday inside the window. *)
Lemma is_rth_gate_boundary_witness :
  fst (is_rth Sample.world) = Ok true <->
  weekday (clock Sample.world) < 5 /\
  34200000000 <= time_of_day (clock Sample.world) <= 57600000000.
Proof.
  exact (proj1 (is_rth_gate_boundary Sample.world sample_valid_time)).
Defined.

(* ===================================================================== *)
(** ** The media filter *)
(* ===================================================================== *)

Lemma has_images_iff (t : Tweet) (incl : Includes) :
  has_images t incl = true <->
  exists att keys ms m,
    attachments t = Some att /\ media_keys att = Some keys /\
    media incl = Some ms /\
    m ∈ ms /\ media_key m ∈ keys /\ media_type m = Some "photo"%string.
Proof.
  split.
  - unfold has_images. intros Hi.
    destruct (attachments t) as [att|]; [|done].
    destruct (media_keys att) as [keys|] eqn:Hk; [|done].
    destruct (media incl) as [ms|]; [|done].
    apply existsb_exists in Hi as (m & Hin & Hm).
    apply andb_true_iff in Hm as [Hkey Hty].
    apply bool_decide_eq_true in Hkey, Hty.
    exists att, keys, ms, m. by rewrite list_elem_of_In.
  - intros (att & keys & ms & m & Ha & Hk & Hm & Hin & Hkey & Hty).
    unfold has_images. rewrite Ha, Hk, Hm.
    apply existsb_exists. exists m. split; [by apply list_elem_of_In|].
    apply andb_true_iff. by rewrite !bool_decide_eq_true.
Qed.

(** C7 (media filter truth condition): [has_images] answers true exactly
    when the post has an [attachments] field with a [media_keys] list, the
    includes payload has a [media] table, and some item of that table has
    its [media_key] in the list and the type ["photo"]; a post without
    [attachments], attachments without [media_keys], and includes without
    [media] all give false. *)
Theorem has_images_truth_condition :
  (forall (t : Tweet) (incl : Includes),
     has_images t incl = true <->
     exists att keys ms m,
       attachments t = Some att /\ media_keys att = Some keys /\
       media incl = Some ms /\
       m ∈ ms /\ media_key m ∈ keys /\ media_type m = Some "photo"%string)
  /\ (forall i txt incl,
        has_images {| tweet_id := i; tweet_text := txt; attachments := None |}
                   incl = false)
  /\ (forall i txt incl,
        has_images {| tweet_id := i; tweet_text := txt;
                      attachments := Some {| media_keys := None |} |}
                   incl = false)
  /\ (forall t, has_images t {| media := None |} = false).
Proof.
  split; [exact has_images_iff|split; [done|split; [done|]]].
  intros t. unfold has_images; simpl.
  destruct (attachments t) as [att|]; [|done].
  by destruct (media_keys att).
Qed.

(* ===================================================================== *)
(** ** The classifier *)
(* ===================================================================== *)

Lemma trade_or_not (b : bool) :
  (if b then u "trade" else u "not trade") = u "trade" <-> b = true.
Proof. by destruct b. Qed.

(** What [classify_trade] comes to: one model call, one more line when
    the call raises, and a label in any case. *)
Lemma classify_trade_eq txt w :
  classify_trade txt w =
  match model w (trace w) (classify_prompt txt) with
  | Returned answer =>
      (Ok (if Str.startswith
                (Str.lower (unicode_lower w) (Str.strip answer)) (u "trade")
           then u "trade" else u "not trade"),
       log [GenerateContent (classify_prompt txt)] w)
  | Raised =>
      (Ok (u "not trade"),
       log [GenerateContent (classify_prompt txt); Stdout MsgClassifyError] w)
  end.
Proof.
  unfold classify_trade, mbind, M_bind, generate_content, str_lower, print, emit;
    simpl.
  destruct (model w (trace w) (classify_prompt txt)); simpl; [done|].
  by rewrite log_log.
Qed.

(** C5 (fail-closed classification): [classify_trade] answers ["trade"]
    exactly when the model call returns and its answer, stripped and
    lower-cased, starts with ["trade"]; any other answer and any exception
    give ["not trade"]. *)
Theorem classify_trade_fail_closed (w : World) (txt : text) :
  (fst (classify_trade txt w) = Ok (u "trade") <->
     exists answer,
       model w (trace w) (classify_prompt txt) = Returned answer /\
       Str.startswith (Str.lower (unicode_lower w) (Str.strip answer))
                      (u "trade") = true)
  /\ (fst (classify_trade txt w) = Ok (u "trade") \/
      fst (classify_trade txt w) = Ok (u "not trade"))
  /\ (model w (trace w) (classify_prompt txt) = Raised ->
      fst (classify_trade txt w) = Ok (u "not trade")).
Proof.
  rewrite classify_trade_eq.
  destruct (model w (trace w) (classify_prompt txt)) as [answer|]; simpl.
  - split; [split|split].
    + intros [= H%trade_or_not]. eauto.
    + intros (a & [= <-] & H). f_equal. by apply trade_or_not.
    + destruct (Str.startswith _ _); auto.
    + done.
  - split; [split|split]; auto.
    + done.
    + by intros (a & ? & _).
Qed.

(* ===================================================================== *)
(** ** The rewriter and the publisher *)
(* ===================================================================== *)

Lemma rewrite_tweet_eq txt w :
  rewrite_tweet txt w =
  match model w (trace w) (rewrite_prompt txt) with
  | Returned answer =>
      (Ok (Some (Str.strip answer)),
       log [GenerateContent (rewrite_prompt txt)] w)
  | Raised =>
      (Ok None,
       log [GenerateContent (rewrite_prompt txt); Stdout MsgRewriteError] w)
  end.
Proof.
  unfold rewrite_tweet, mbind, M_bind, generate_content, print, emit; simpl.
  destruct (model w (trace w) (rewrite_prompt txt)); simpl; [done|].
  by rewrite log_log.
Qed.

(** One request, whatever comes of it: an answer with status 201, an
    answer with another status, or an exception. *)
Lemma post_tweet_eq body w :
  post_tweet body w =
  match tweets_api w (trace w ++ [Stdout (MsgPosting body)]) body with
  | Replied r =>
      if status_code r =? 201 then
        (Ok true, log [Stdout (MsgPosting body); TweetCreate body] w)
      else
        (Ok false, log [Stdout (MsgPosting body); TweetCreate body;
                        Stdout (MsgPostError (response_text r))] w)
  | Failed =>
      (Raise RequestException,
       log [Stdout (MsgPosting body); TweetCreate body] w)
  end.
Proof.
  unfold post_tweet, mbind, M_bind, requests_post, print, emit; simpl.
  destruct (tweets_api w _ body) as [r|]; simpl; [|by rewrite log_log].
  destruct (status_code r =? 201); simpl; by rewrite !log_log.
Qed.

(* ===================================================================== *)
(** ** One iteration *)
(* ===================================================================== *)

(** A post whose id is in the set leaves set and world as they are. *)
Lemma process_tweet_seen incl (processed : gset string) t w :
  tweet_id t ∈ processed ->
  process_tweet incl processed t w = (Ok processed, w).
Proof.
  intros Hin. unfold process_tweet.
  by rewrite bool_decide_eq_true_2.
Qed.

(** A new post with a photo costs one diagnostic. *)
Lemma process_tweet_photo incl (processed : gset string) t w :
  tweet_id t ∉ processed ->
  has_images t incl = true ->
  process_tweet incl processed t w =
    (Ok (processed ∪ {[tweet_id t]}),
     log [Stdout (MsgSkipImages (tweet_id t))] w).
Proof.
  intros Hnew Himg. unfold process_tweet.
  rewrite bool_decide_eq_false_2 by done. by rewrite Himg.
Qed.

(** A new post without photo: the iteration in terms of what the three
    services say. *)
Lemma process_tweet_new incl (processed : gset string) t w :
  tweet_id t ∉ processed ->
  has_images t incl = false ->
  process_tweet incl processed t w =
  let tid := tweet_id t in
  let marked := processed ∪ {[tid]} in
  let ask1 := GenerateContent (classify_prompt (tweet_text t)) in
  let ask2 := GenerateContent (rewrite_prompt (tweet_text t)) in
  let not_trade diag :=
    (Ok marked, log ([ask1] ++ diag ++ [Stdout (MsgSkipNotTrade tid)]) w) in
  let no_rewrite diag :=
    (Ok marked, log ([ask1; ask2] ++ diag ++ [Stdout (MsgSkipRewrite tid)]) w) in
  match model w (trace w) (classify_prompt (tweet_text t)) with
  | Raised => not_trade [Stdout MsgClassifyError]
  | Returned label =>
    if Str.startswith (Str.lower (unicode_lower w) (Str.strip label)) (u "trade")
    then
      match model w (trace w ++ [ask1]) (rewrite_prompt (tweet_text t)) with
      | Raised => no_rewrite [Stdout MsgRewriteError]
      | Returned answer =>
        let body := Str.strip answer in
        if Str.truthy body then
          let asked := [ask1; ask2; Stdout (MsgPosting body)] in
          match tweets_api w (trace w ++ asked) body with
          | Failed =>
              (Raise RequestException, log (asked ++ [TweetCreate body]) w)
          | Replied r =>
              (Ok marked,
               log (asked ++ [TweetCreate body]
                    ++ (if status_code r =? 201
                        then [Stdout (MsgPosted tid)]
                        else [Stdout (MsgPostError (response_text r));
                              Stdout (MsgPostFailed tid)])) w)
          end
        else no_rewrite []
      end
    else not_trade []
  end.
Proof.
  intros Hnew Himg. unfold process_tweet.
  rewrite bool_decide_eq_false_2 by done. rewrite Himg.
  unfold mbind at 1, M_bind at 1. rewrite classify_trade_eq.
  destruct (model w (trace w) (classify_prompt (tweet_text t))) as [label|];
    simpl.
  2:{ unfold mbind, M_bind, print, emit; simpl. by rewrite log_log. }
  destruct (Str.startswith _ _); simpl.
  2:{ unfold mbind, M_bind, print, emit; simpl. by rewrite log_log. }
  unfold mbind at 1, M_bind at 1. rewrite rewrite_tweet_eq. simpl.
  destruct (model w _ (rewrite_prompt (tweet_text t))) as [answer|]; simpl.
  2:{ unfold mbind, M_bind, print, emit; simpl. by rewrite !log_log. }
  destruct (Str.truthy (Str.strip answer)); simpl.
  2:{ unfold mbind, M_bind, print, emit; simpl. by rewrite !log_log. }
  unfold mbind at 1, M_bind at 1. rewrite post_tweet_eq. simpl.
  rewrite <- !app_assoc. simpl.
  destruct (tweets_api w _ (Str.strip answer)) as [r|]; simpl.
  2:{ by rewrite !log_log. }
  destruct (status_code r =? 201); simpl;
    unfold mbind, M_bind, print, emit; simpl; by rewrite !log_log.
Qed.

Lemma loop_event_mono mdl (l l' : list Tweet) e :
  (forall t, t ∈ l -> t ∈ l') -> loop_event mdl l e -> loop_event mdl l' e.
Proof.
  intros Hsub. destruct e as [m| |prompt|body|ids]; simpl; try done.
  - intros (t & Hin & H). eauto.
  - intros (Hne & t & history & answer & Hin & H). eauto 10.
Qed.

Ltac loop_event_ok t :=
  repeat match goal with
  | |- Forall _ [] => constructor
  | |- Forall _ (_ :: _) => constructor
  | |- loop_event _ _ (Stdout _) => exact I
  | |- loop_event _ _ (GenerateContent _) =>
      exists t; split; [apply list_elem_of_here|auto]
  | |- loop_event _ _ (TweetCreate _) =>
      split;
      [ let E := fresh in
        intros E;
        match goal with H : Str.truthy _ = true |- _ =>
          rewrite E in H; discriminate H end
      | exists t; eexists _, _;
        split; [apply list_elem_of_here|split; [eassumption|reflexivity]] ]
  end.

(** One iteration, with all it may do: print, ask the model at most
    twice, publish at most once, and nothing at all for a seen post. *)
Lemma process_tweet_events incl (processed : gset string) t w :
  exists evs,
    snd (process_tweet incl processed t w) = log evs w
    /\ marked_or_raised processed t w evs
         (fst (process_tweet incl processed t w))
    /\ Forall (loop_event (model w) [t]) evs
    /\ (count is_publish evs <= 1)%nat
    /\ (count is_generate evs <= 2)%nat
    /\ (tweet_id t ∈ processed -> evs = []).
Proof.
  unfold marked_or_raised.
  destruct (decide (tweet_id t ∈ processed)) as [Hin|Hnew].
  { exists []. rewrite (process_tweet_seen _ _ _ _ Hin); simpl.
    rewrite log_nil, union_seen by done.
    split; [done|]. split; [by left|]. split; [constructor|]. by repeat split; auto. }
  destruct (has_images t incl) eqn:Himg.
  { rewrite (process_tweet_photo _ _ _ _ Hnew Himg); simpl.
    eexists. split; [reflexivity|]. split; [by left|].
    split; [loop_event_ok t|].
    repeat split; try (vm_compute; lia). done. }
  rewrite (process_tweet_new _ _ _ _ Hnew Himg); simpl.
  repeat (case_match; simpl in *; simplify_eq);
    (eexists; split; [reflexivity|];
     split; [first [ (by left)
                   | (right; split; [done|]; split; [done|];
                      eexists [_; _; _], _; done) ]|];
     split; [loop_event_ok t|];
     repeat split; try (vm_compute; lia); done).
Qed.

Lemma marked_or_raised_answers (processed : gset string) t w evs r :
  publisher_answers w ->
  marked_or_raised processed t w evs r ->
  r = Ok (processed ∪ {[tweet_id t]}).
Proof.
  intros Hp [->|(_ & _ & asked & body & _ & Hf)]; [done|].
  by destruct (Hp _ _ Hf).
Qed.

(* ===================================================================== *)
(** ** The loop *)
(* ===================================================================== *)



(** The loop over a batch: it ends with every id of the batch in the set
    or with the exception of a publish request; either way it only grows
    the trace, by what [loop_event] allows, and every publish request and
    every pair of model calls is paid for by an id of the batch that was
    not in the set. *)
Lemma process_all_events incl tweets : forall (processed : gset string) w,
  exists evs,
    snd (process_all incl processed tweets w) = log evs w
    /\ (fst (process_all incl processed tweets w)
          = Ok (processed ∪ list_to_set (ids_of tweets))
        \/ fst (process_all incl processed tweets w) = Raise RequestException)
    /\ Forall (loop_event (model w) tweets) evs
    /\ (count is_publish evs + size processed
        <= size (processed ∪ list_to_set (ids_of tweets)))%nat
    /\ (count is_generate evs + 2 * size processed
        <= 2 * size (processed ∪ list_to_set (ids_of tweets)))%nat
    /\ (publisher_answers w ->
        fst (process_all incl processed tweets w)
          = Ok (processed ∪ list_to_set (ids_of tweets))).
Proof.
  induction tweets as [|t rest IH]; intros processed w; simpl.
  - exists []. rewrite log_nil, (right_id_L ∅ (∪)).
    split; [done|]. split; [by left|]. split; [constructor|].
    rewrite !count_nil. repeat split; auto; lia.
  - destruct (process_tweet_events incl processed t w)
      as (evs1 & E1 & O1 & F1 & P1 & G1 & S1).
    assert (Hmono1 : Forall (loop_event (model w) (t :: rest)) evs1).
    { eapply Forall_impl; [exact F1|]. intros e.
      apply loop_event_mono. intros x Hx%list_elem_of_singleton.
      subst. apply list_elem_of_here. }
    assert (Hsize : (size processed <= size (processed ∪ {[tweet_id t]})
                     <= size (processed ∪ ({[tweet_id t]}
                                ∪ list_to_set (ids_of rest))))%nat).
    { split; apply subseteq_size;
        [apply union_subseteq_l|apply union_mono_l, union_subseteq_l]. }
    assert (Hstep : (count is_publish evs1 + size processed
                       <= size (processed ∪ {[tweet_id t]})
                     /\ count is_generate evs1 + 2 * size processed
                       <= 2 * size (processed ∪ {[tweet_id t]}))%nat).
    { destruct (decide (tweet_id t ∈ processed)) as [Hin|Hnew].
      - rewrite (S1 Hin), !count_nil. lia.
      - rewrite (size_union_new _ _ Hnew). lia. }
    unfold mbind, M_bind.
    destruct (process_tweet incl processed t w) as [[p1|e] w1] eqn:Et;
      simpl in E1, O1; subst w1.
    + assert (p1 = processed ∪ {[tweet_id t]}) as ->.
      { destruct O1 as [[= ->]|(? & _)]; done. }
      destruct (IH (processed ∪ {[tweet_id t]}) (log evs1 w))
        as (evs2 & E2 & O2 & F2 & P2 & G2 & A2).
      exists (evs1 ++ evs2). rewrite (assoc_L (∪)).
      split; [by rewrite E2, log_log|]. split; [exact O2|].
      split.
      { apply Forall_app. split; [exact Hmono1|].
        eapply Forall_impl; [exact F2|]. intros e.
        apply loop_event_mono. intros x Hx. by apply list_elem_of_further. }
      rewrite !count_app. rewrite (assoc_L (∪)) in Hsize.
      split; [lia|]. split; [lia|]. exact A2.
    + exists evs1. split; [done|].
      destruct O1 as [?|([= ->] & Hnew & asked & body & -> & Hf)]; [done|].
      split; [by right|]. split; [exact Hmono1|].
      split; [lia|]. split; [lia|].
      intros Hp. by destruct (Hp _ _ Hf).
Qed.



(* ===================================================================== *)
(** ** The run, case by case *)
(* ===================================================================== *)

Lemma get_latest_tweets_eq w :
  get_latest_tweets w =
  match timeline_api w with
  | Failed => (Raise RequestException, log [TimelineGet] w)
  | Replied r =>
      if status_code r =? 200 then
        match json r with
        | Json v => (Ok (Some v), log [TimelineGet] w)
        | NotJson => (Raise JSONDecodeError, log [TimelineGet] w)
        end
      else
        (Ok None,
         log [TimelineGet; Stdout (MsgFetchError (response_text r))] w)
  end.
Proof.
  unfold get_latest_tweets, mbind, M_bind, requests_get, response_json,
    print, emit, raise; simpl.
  destruct (timeline_api w) as [r|]; simpl; [|done].
  destruct (status_code r =? 200); simpl; [|by rewrite log_log].
  by destruct (json r).
Qed.

(** Gate closed: one diagnostic, nothing else. *)
Lemma run_gate_closed w :
  fst (is_rth w) = Ok false ->
  run w = (Ok tt,
           log [Stdout (if 5 <=? weekday (clock w) then MsgWeekend
                        else MsgOutsideRTH (clock w))] w).
Proof.
  intros Hc. unfold run, mbind, M_bind. by rewrite (is_rth_closed w Hc).
Qed.

(** Gate open: the run in terms of what the timeline endpoint says and of
    how the loop ends. *)
Lemma run_gate_open w :
  fst (is_rth w) = Ok true ->
  run w =
  match timeline_api w with
  | Failed => (Raise RequestException, loop_start w)
  | Replied r =>
      if status_code r =? 200 then
        match json r with
        | NotJson => (Raise JSONDecodeError, loop_start w)
        | Json v =>
            if json_truthy v then
              match v with
              | JObject d =>
                  match process_all (batch_includes w) (persisted w) (batch w)
                          (loop_start w) with
                  | (Ok final, w') =>
                      (Ok tt,
                       store (elements final)
                         (log [FileDump (elements final); Stdout MsgDone] w'))
                  | (Raise e, w') => (Raise e, w')
                  end
              | _ => (Raise AttributeError, loop_start w)
              end
            else (Ok tt, loop_start w)
        end
      else
        (Ok tt, log [Stdout (MsgFetchError (response_text r))] (loop_start w))
  end.
Proof.
  intros Ho. unfold run. unfold mbind at 1, M_bind at 1.
  rewrite (is_rth_open w Ho); simpl.
  unfold mbind at 1, M_bind at 1. rewrite load_processed_pure.
  unfold mbind at 1, M_bind at 1, print, emit.
  unfold mbind at 1, M_bind at 1. rewrite get_latest_tweets_eq. simpl.
  unfold loop_start, batch, batch_includes, fetched_object.
  destruct (timeline_api w) as [r|]; simpl; rewrite ?log_log; [|done].
  destruct (status_code r =? 200); simpl; rewrite ?log_log; [|done].
  destruct (json r) as [v|]; simpl; rewrite ?log_log; [|done].
  destruct (json_truthy v) eqn:Hv; simpl; [|done].
  destruct v; try done. simpl.
  unfold mbind, M_bind.
  destruct (process_all _ _ _ _) as [[final|e] w']; [|done].
  unfold save_processed, write_file, print, emit; simpl.
  by rewrite log_store, log_log.
Qed.

Lemma fetch_yields_dec w : fetch_yields w \/ ~ fetch_yields w.
Proof.
  unfold fetch_yields.
  destruct (fetched_object w) as [d|]; [|right; by intros (? & ? & _)].
  destruct (dict_truthy d) eqn:Hd; [left; eauto|].
  right. intros (d' & [= <-] & H). congruence.
Qed.

Lemma loop_returns_dec w : loop_returns w \/ ~ loop_returns w.
Proof.
  unfold loop_returns.
  destruct (fst (process_all _ _ _ _)) as [p|e]; [left; eauto|].
  right. by intros (? & ?).
Qed.


(** What the fetch yields, read off the reply. *)
Lemma fetch_yields_reply w :
  fetch_yields w <->
  exists r d,
    timeline_api w = Replied r /\ status_code r = 200 /\
    json r = Json (JObject d) /\ dict_truthy d = true.
Proof.
  unfold fetch_yields, fetched_object. split.
  - intros (d & Hd & Ht).
    destruct (timeline_api w) as [r|]; [|done].
    destruct (status_code r =? 200) eqn:Hs; [|done].
    destruct (json r) as [v|] eqn:Hj; [|done].
    destruct v; try done.
    simplify_eq. apply Z.eqb_eq in Hs. eauto 10.
  - intros (r & d & -> & Hs & -> & Ht).
    apply Z.eqb_eq in Hs. rewrite Hs. eauto.
Qed.

(** Gate open and a payload: the loop starts, and the run ends as the
    loop does. *)
Lemma run_fetched w :
  fst (is_rth w) = Ok true -> fetch_yields w ->
  run w =
  match process_all (batch_includes w) (persisted w) (batch w)
          (loop_start w) with
  | (Ok final, w') =>
      (Ok tt,
       store (elements final)
         (log [FileDump (elements final); Stdout MsgDone] w'))
  | (Raise e, w') => (Raise e, w')
  end.
Proof.
  intros Ho (r & d & Hr & Hs & Hj & Ht)%fetch_yields_reply.
  rewrite (run_gate_open w Ho), Hr.
  apply Z.eqb_eq in Hs. rewrite Hs, Hj. simpl. by rewrite Ht.
Qed.

(** A saving run: the batch is worked through, then the set is written
    and the run says so. *)
Lemma run_saves w :
  reaches_save w ->
  let final := persisted w ∪ list_to_set (ids_of (batch w)) in
  exists evs,
    process_all (batch_includes w) (persisted w) (batch w) (loop_start w)
      = (Ok final, log evs (loop_start w))
    /\ run w = (Ok tt,
                store (elements final)
                  (log ([Stdout (MsgLoaded (size (persisted w))); TimelineGet]
                        ++ evs
                        ++ [FileDump (elements final); Stdout MsgDone]) w))
    /\ Forall (loop_event (model w) (batch w)) evs
    /\ (count is_publish evs + size (persisted w) <= size final)%nat
    /\ (count is_generate evs + 2 * size (persisted w) <= 2 * size final)%nat.
Proof.
  intros (Ho & Hf & (p & Hp)) final.
  destruct (process_all_events (batch_includes w) (batch w) (persisted w)
              (loop_start w)) as (evs & E & O & F & P & G & _).
  assert (Hloop : process_all (batch_includes w) (persisted w) (batch w)
                    (loop_start w) = (Ok final, log evs (loop_start w))).
  { destruct (process_all _ _ _ _) as [r w']. simpl in *. subst w'.
    f_equal. destruct O as [-> | ->]; [done|]. congruence. }
  exists evs. split; [exact Hloop|]. split; [|done].
  rewrite (run_fetched w Ho Hf), Hloop. unfold loop_start.
  rewrite !log_log. by rewrite <- ?app_assoc.
Qed.

(** No payload: the run is over after the fetch at the latest, and has
    done nothing but print and, the gate open, ask the timeline. *)
Lemma run_no_payload w :
  ~ fetch_yields w ->
  exists evs,
    snd (run w) = log evs w
    /\ Forall (fun e => is_quiet e = true) evs
    /\ count is_fetch evs
       = (match fst (is_rth w) with Ok true => 1 | _ => 0 end)%nat
    /\ (fst (is_rth w) = Ok true ->
        exists rest,
          evs = Stdout (MsgLoaded (size (persisted w))) :: TimelineGet :: rest
          /\ count is_fetch rest = 0%nat).
Proof.
  intros Hn. destruct (is_rth_total w) as [Ho|Hc].
  2:{ rewrite (run_gate_closed w Hc), Hc; simpl. eexists.
      split; [reflexivity|]. split; [by repeat constructor|].
      split; [done|]. intros [=]. }
  rewrite (run_gate_open w Ho), Ho.
  assert (Hstart : forall tail,
    Forall (fun e => is_quiet e = true) tail -> count is_fetch tail = 0%nat ->
    exists evs,
      log tail (loop_start w) = log evs w
      /\ Forall (fun e => is_quiet e = true) evs
      /\ count is_fetch evs = 1%nat
      /\ (Ok true = Ok true :> result bool ->
          exists rest,
            evs = Stdout (MsgLoaded (size (persisted w))) :: TimelineGet :: rest
            /\ count is_fetch rest = 0%nat)).
  { intros tail Hq Hc. unfold loop_start. rewrite log_log. eexists.
    split; [reflexivity|]. split; [by repeat constructor|].
    split; [|intros _; eexists; split; [reflexivity|exact Hc]].
    rewrite (count_app _ [_; _]), Hc. reflexivity. }
  destruct (timeline_api w) as [r|] eqn:Hr; simpl.
  2:{ rewrite <- (log_nil (loop_start w)). by apply Hstart. }
  destruct (status_code r =? 200) eqn:Hs; simpl.
  2:{ apply Hstart; [by repeat constructor|done]. }
  destruct (json r) as [v|] eqn:Hj; simpl.
  2:{ rewrite <- (log_nil (loop_start w)). by apply Hstart. }
  destruct (json_truthy v) eqn:Hv; simpl.
  2:{ rewrite <- (log_nil (loop_start w)). by apply Hstart. }
  destruct v as [| | | | |d]; simpl;
    try (rewrite <- (log_nil (loop_start w)); by apply Hstart).
  destruct Hn. apply fetch_yields_reply. apply Z.eqb_eq in Hs. eauto 10.
Qed.

(** A payload, and a publish request of the loop that raises: the run
    ends there, with the exception. *)
Lemma run_loop_raises w :
  fst (is_rth w) = Ok true -> fetch_yields w -> ~ loop_returns w ->
  exists evs,
    run w = (Raise RequestException,
             log ([Stdout (MsgLoaded (size (persisted w))); TimelineGet]
                  ++ evs) w)
    /\ Forall (loop_event (model w) (batch w)) evs
    /\ (count is_publish evs + size (persisted w)
        <= size (persisted w ∪ list_to_set (ids_of (batch w))))%nat
    /\ (count is_generate evs + 2 * size (persisted w)
        <= 2 * size (persisted w ∪ list_to_set (ids_of (batch w))))%nat
    /\ ~ publisher_answers w.
Proof.
  intros Ho Hf Hl.
  destruct (process_all_events (batch_includes w) (batch w) (persisted w)
              (loop_start w)) as (evs & E & O & F & P & G & A).
  exists evs. rewrite (run_fetched w Ho Hf).
  destruct (process_all _ _ _ _) as [[p|e] w'] eqn:Ep; simpl in *.
  { destruct Hl. exists p. unfold loop_returns. by rewrite Ep. }
  subst w'. destruct O as [?|[= ->]]; [done|].
  split; [unfold loop_start; by rewrite log_log|].
  split; [done|]. split; [done|]. split; [done|].
  intros Hp. by specialize (A Hp).
Qed.






(* ===================================================================== *)
(** ** Properties of the pipeline *)
(* ===================================================================== *)



(** C2 (unconditional marking): a run that reaches the save step leaves on
    file the set it loaded together with the ids of all fetched posts;
    every iteration that ends, ends with the post's id in the set,
    whichever branch resolved it; it ends whenever the publisher answers,
    and so it does when the publisher refuses every post. *)
Theorem unconditional_marking (w : World) (Hsave : reaches_save w) :
  processed_file (snd (run w))
    = Some (elements (persisted w ∪ list_to_set (ids_of (batch w))))
  /\ persisted (snd (run w)) = persisted w ∪ list_to_set (ids_of (batch w))
  /\ (forall incl (processed processed' : gset string) t w',
        fst (process_tweet incl processed t w') = Ok processed' ->
        processed' = processed ∪ {[tweet_id t]})
  /\ (forall incl (processed : gset string) t w',
        publisher_answers w' ->
        fst (process_tweet incl processed t w')
        = Ok (processed ∪ {[tweet_id t]}))
  /\ (forall incl (processed : gset string) t w',
        (forall history body,
           exists r, tweets_api w' history body = Replied r /\
                     status_code r <> 201) ->
        fst (process_tweet incl processed t w')
        = Ok (processed ∪ {[tweet_id t]})).
Proof.
  destruct (run_saves w Hsave) as (evs & _ & E & _).
  assert (Hstep : forall incl (processed : gset string) t w',
            publisher_answers w' ->
            fst (process_tweet incl processed t w')
            = Ok (processed ∪ {[tweet_id t]})).
  { intros incl processed t w' Hp.
    destruct (process_tweet_events incl processed t w') as (evs' & _ & O & _).
    by apply (marked_or_raised_answers _ _ _ _ _ Hp O). }
  rewrite E; simpl. split; [done|]. split; [|split; [|split; [done|]]].
  - by rewrite persisted_store, list_to_set_elements_L.
  - intros incl processed processed' t w' E'.
    destruct (process_tweet_events incl processed t w') as (evs' & _ & O & _).
    rewrite E' in O. by destruct O as [[= ->]|(? & _)].
  - intros incl processed t w' Hr. apply Hstep.
    intros history body Hf. destruct (Hr history body) as (r & Hr' & _).
    congruence.
Qed.

Lemma sample_reaches_save : reaches_save Sample.world.
Proof.
  split; [reflexivity|]. split.
  - exists Sample.payload. by split.
  - eexists. vm_compute. reflexivity.
Defined.

(** In the sample world the publisher refuses, and still 1 and 3 join 2. *)
Lemma unconditional_marking_witness :
  persisted (snd (run Sample.world))
  = persisted Sample.world ∪ list_to_set (ids_of (batch Sample.world)).
Proof.
  exact (proj1 (proj2 (unconditional_marking Sample.world sample_reaches_save))).
Defined.





(** C6 (photo skip precedence): a fetched post that is not in the set and
    has a media key resolving to an item of type ["photo"] is marked
    processed at the cost of one diagnostic: no classify, rewrite or
    publish call is made, whatever its text, and the loop goes on with the
    rest of the batch. *)
Theorem photo_skip_precedence incl (processed : gset string) t w
    att keys ms m rest :
  tweet_id t ∉ processed ->
  attachments t = Some att -> media_keys att = Some keys ->
  media incl = Some ms ->
  m ∈ ms -> media_key m ∈ keys -> media_type m = Some "photo"%string ->
  process_tweet incl processed t w
    = (Ok (processed ∪ {[tweet_id t]}),
       log [Stdout (MsgSkipImages (tweet_id t))] w)
  /\ count is_call (emitted w (snd (process_tweet incl processed t w))) = 0%nat
  /\ (exists processed',
        fst (process_tweet incl processed t w) = Ok processed' /\
        tweet_id t ∈ processed')
  /\ process_all incl processed (t :: rest) w
     = process_all incl (processed ∪ {[tweet_id t]}) rest
         (log [Stdout (MsgSkipImages (tweet_id t))] w).
Proof.
  intros Hnew Ha Hk Hm Hin Hkey Hty.
  assert (Himg : has_images t incl = true).
  { apply has_images_iff. naive_solver. }
  pose proof (process_tweet_photo incl processed t w Hnew Himg) as E.
  split; [exact E|]. rewrite E; simpl. rewrite emitted_log.
  split; [done|]. split.
  - eexists. split; [reflexivity|].
    apply elem_of_union. right. by apply elem_of_singleton.
  - unfold mbind, M_bind. by rewrite E.
Qed.

(** Post 3 carries the photo 7_1: one diagnostic, and 3 is in the set. *)
Lemma photo_skip_precedence_witness :
  process_tweet Sample.with_photo ∅ Sample.photo_tweet Sample.world
  = (Ok (∅ ∪ {["3"%string]}), log [Stdout (MsgSkipImages "3")] Sample.world).
Proof.
  eapply proj1,
    (photo_skip_precedence Sample.with_photo ∅ Sample.photo_tweet Sample.world
       _ _ _ Sample.photo []).
  - apply not_elem_of_empty.
  - reflexivity.
  - reflexivity.
  - reflexivity.
  - constructor.
  - constructor.
  - reflexivity.
Defined.



(** C9 (dedupe store round trip): with no state file [load_processed]
    gives the empty set; what [save_processed] writes, [load_processed]
    reads back as the same set; the set read from a file is the set of the
    ids listed in it, so neither their order nor their repetition counts. *)
Theorem dedupe_store_round_trip :
  (forall w, fst (load_processed (with_file None w)) = Ok ∅)
  /\ (forall (s : gset string) w,
        fst (load_processed (snd (save_processed s w))) = Ok s)
  /\ (forall l w, exists s : gset string,
        fst (load_processed (with_file (Some l) w)) = Ok s /\
        forall i : string, i ∈ s <-> i ∈ l)
  /\ (forall l1 l2 w,
        fst (load_processed (with_file (Some (l1 ++ l2)) w))
        = fst (load_processed (with_file (Some (l2 ++ l1)) w)))
  /\ (forall i l w,
        fst (load_processed (with_file (Some (i :: i :: l)) w))
        = fst (load_processed (with_file (Some (i :: l)) w))).
Proof.
  split; [done|]. split; [|split; [|split]].
  - intros s w. rewrite load_processed_pure. simpl.
    unfold save_processed, write_file; simpl.
    by rewrite persisted_store, list_to_set_elements_L.
  - intros l w. eexists. split; [reflexivity|].
    intros i. apply elem_of_list_to_set.
  - intros l1 l2 w. simpl. f_equal.
    rewrite !list_to_set_app_L. apply (comm_L (∪)).
  - intros i l w. simpl. f_equal.
    by rewrite (assoc_L (∪)), (idemp_L (∪)).
Qed.

(* ===================================================================== *)
(** ** Stripping and lower-casing *)
(* ===================================================================== *)

Lemma rstrip_cons c s :
  Str.isspace c = false -> Str.rstrip (c :: s) = c :: Str.rstrip s.
Proof. intros Hc. simpl. rewrite Hc. by destruct (Str.rstrip s). Qed.

Lemma lstrip_shape s :
  Str.lstrip s = [] \/
  exists c r, Str.lstrip s = c :: r /\ Str.isspace c = false.
Proof.
  induction s as [|c s IH]; simpl; [by left|].
  destruct (Str.isspace c) eqn:Hc; [done|]. right. eauto.
Qed.

Lemma lstrip_blank s : Str.lstrip s = [] <-> blank s = true.
Proof.
  induction s as [|c s IH]; simpl; [done|].
  destruct (Str.isspace c); simpl; [done|]. split; discriminate.
Qed.

Lemma rstrip_blank s : Str.rstrip s = [] <-> blank s = true.
Proof.
  induction s as [|c s IH]; simpl; [done|].
  destruct (Str.rstrip s) as [|c' r].
  - destruct (Str.isspace c); simpl; [tauto|]. split; discriminate.
  - split; [discriminate|]. intros [_ Hb]%andb_true_iff.
    apply IH in Hb. discriminate Hb.
Qed.

Lemma lstrip_pad pad s : blank pad = true -> Str.lstrip (pad ++ s) = Str.lstrip s.
Proof.
  induction pad as [|c pad IH]; simpl; [done|].
  intros [Hc Hb]%andb_true_iff. rewrite Hc. by apply IH.
Qed.

Lemma strip_blank s : Str.strip s = [] <-> blank s = true.
Proof.
  unfold Str.strip. rewrite rstrip_blank.
  destruct (lstrip_shape s) as [E|(c & r & E & Hc)]; rewrite E; simpl.
  - split; [intros _; by apply lstrip_blank|done].
  - rewrite Hc; simpl. split; [discriminate|].
    intros Hb%lstrip_blank. congruence.
Qed.

Lemma last_cons (c d : N) (r : text) : List.last (c :: r) d = List.last r c.
Proof.
  revert c d. induction r as [|c' r IH]; intros c d; [done|].
  change (List.last (c :: c' :: r) d) with (List.last (c' :: r) d).
  by rewrite !IH.
Qed.

Lemma rstrip_last s : forall c r,
  Str.rstrip s = c :: r -> Str.isspace (List.last r c) = false.
Proof.
  induction s as [|a s IH]; intros c r; simpl; [discriminate|].
  destruct (Str.rstrip s) as [|c' r'] eqn:E.
  - destruct (Str.isspace a) eqn:Ha; [discriminate|]. by intros [= <- <-].
  - intros [= <- <-]. rewrite last_cons. by apply IH.
Qed.

Lemma strip_trimmed s : trimmed (Str.strip s) = true.
Proof.
  unfold Str.strip.
  destruct (lstrip_shape s) as [E|(c & r & E & Hc)]; rewrite E; [done|].
  rewrite (rstrip_cons _ _ Hc). simpl. rewrite Hc; simpl.
  apply negb_true_iff, (rstrip_last (c :: r)). by apply rstrip_cons.
Qed.

(** The first code point that is not whitespace survives [strip]. *)
Lemma strip_pad_cons pad c s :
  blank pad = true -> Str.isspace c = false ->
  Str.strip (pad ++ c :: s) = c :: Str.rstrip s.
Proof.
  intros Hp Hc. unfold Str.strip. rewrite (lstrip_pad _ _ Hp). simpl.
  rewrite Hc. by apply rstrip_cons.
Qed.

(** A code point that lower-cases to an ASCII letter is an ASCII letter,
    and no whitespace. *)
Lemma lower_ascii_letter c x :
  Str.lower_ascii c = x -> (97 <= x <= 122)%N ->
  (c <? 128)%N = true /\ Str.isspace c = false.
Proof.
  unfold Str.lower_ascii. intros E Hx.
  assert (Hc : (65 <= c <= 122)%N).
  { destruct (_ && _) eqn:Hup; [|lia].
    apply andb_true_iff in Hup as [H1%N.leb_le H2%N.leb_le]. lia. }
  split; [apply N.ltb_lt; lia|].
  unfold Str.isspace.
  repeat (apply orb_false_intro);
    try (apply N.eqb_neq; lia);
    apply andb_false_iff;
    first [left; apply N.leb_gt; lia | right; apply N.leb_gt; lia].
Qed.

Lemma lower_from_ascii db before c s :
  (c <? 128)%N = true ->
  Str.lower_from db before (c :: s)
  = Str.lower_ascii c :: Str.lower_from db (before ++ [c]) s.
Proof. intros Hc. simpl. by rewrite Hc. Qed.

(** C10 (empty rewrite treated as failure): for a new post without photo
    that the classifier labels a trade, a rewrite that is empty once
    stripped and a rewrite call that raises end alike: the publisher is
    not called, the post is reported as a failed rewrite, and its id is in
    the set. *)
Theorem empty_rewrite_is_failure incl (processed : gset string) t w
    (label : text) (out : generated) :
  tweet_id t ∉ processed ->
  has_images t incl = false ->
  model w (trace w) (classify_prompt (tweet_text t)) = Returned label ->
  Str.startswith (Str.lower (unicode_lower w) (Str.strip label)) (u "trade")
    = true ->
  model w (trace w ++ [GenerateContent (classify_prompt (tweet_text t))])
        (rewrite_prompt (tweet_text t)) = out ->
  (out = Raised \/ exists answer, out = Returned answer /\ Str.strip answer = []) ->
  fst (process_tweet incl processed t w) = Ok (processed ∪ {[tweet_id t]})
  /\ count is_publish (emitted w (snd (process_tweet incl processed t w))) = 0%nat
  /\ emitted w (snd (process_tweet incl processed t w))
     = [GenerateContent (classify_prompt (tweet_text t));
        GenerateContent (rewrite_prompt (tweet_text t))]
       ++ match out with Raised => [Stdout MsgRewriteError] | Returned _ => [] end
       ++ [Stdout (MsgSkipRewrite (tweet_id t))]
  /\ (forall answer, out = Returned answer ->
      (Str.strip answer = [] <-> blank answer = true)).
Proof.
  intros Hnew Himg Hc Htrade Hr Hout.
  rewrite (process_tweet_new _ _ _ _ Hnew Himg); simpl.
  rewrite Hc, Htrade, Hr.
  destruct Hout as [->|(answer & -> & Hempty)]; simpl.
  - rewrite emitted_log. by repeat split.
  - rewrite Hempty; simpl. rewrite emitted_log.
    split; [done|]. split; [done|]. split; [done|].
    intros a _. apply strip_blank.
Qed.

(** The sample model rewrites to a line feed and two no-break spaces:
    post 1 is marked, nothing is published. *)
Lemma empty_rewrite_is_failure_witness :
  fst (process_tweet Sample.with_photo {["2"%string]} Sample.plain_tweet
         (Sample.with_model (Returned [10; 160; 160]%N)))
  = Ok ({["2"%string]} ∪ {["1"%string]}).
Proof.
  eapply proj1,
    (empty_rewrite_is_failure Sample.with_photo {["2"%string]}
       Sample.plain_tweet (Sample.with_model (Returned [10; 160; 160]%N))
       (u " Trade
") (Returned [10; 160; 160]%N)).
  - intros H%elem_of_singleton. discriminate H.
  - reflexivity.
  - reflexivity.
  - reflexivity.
  - reflexivity.
  - right. eexists. split; reflexivity.
Defined.

(* ===================================================================== *)
(** ** The rewriter and the classifier, once more *)
(* ===================================================================== *)

(** X1: [rewrite_tweet] asks the model once, raises nothing and leaves the
    state file alone; it answers [None] exactly when the call raises; a
    text it returns starts and ends with a code point that is no
    whitespace, and it is empty exactly when the model's answer is nothing
    but whitespace. *)
Theorem rewrite_tweet_trims (w : World) (txt : text) :
  (fst (rewrite_tweet txt w) = Ok None <->
     model w (trace w) (rewrite_prompt txt) = Raised)
  /\ (exists r, fst (rewrite_tweet txt w) = Ok r)
  /\ (forall body,
        fst (rewrite_tweet txt w) = Ok (Some body) -> trimmed body = true)
  /\ (forall answer,
        model w (trace w) (rewrite_prompt txt) = Returned answer ->
        (fst (rewrite_tweet txt w) = Ok (Some []) <-> blank answer = true))
  /\ count is_generate (emitted w (snd (rewrite_tweet txt w))) = 1%nat
  /\ count is_publish (emitted w (snd (rewrite_tweet txt w))) = 0%nat
  /\ processed_file (snd (rewrite_tweet txt w)) = processed_file w.
Proof.
  rewrite rewrite_tweet_eq.
  destruct (model w (trace w) (rewrite_prompt txt)) as [answer|]; simpl;
    rewrite emitted_log.
  - split; [split; discriminate|]. split; [eauto|].
    split; [|split; [|done]].
    + intros body [= <-]. apply strip_trimmed.
    + intros a [= <-]. rewrite <- strip_blank.
      split; [by intros [= ->]|by intros ->].
  - split; [done|]. split; [eauto|].
    split; [discriminate|]. split; [discriminate|done].
Qed.

(** X2: the classifier reads the model's answer leniently: after any
    whitespace, Unicode whitespace included, a word that is "trade" in any
    mix of ASCII cases makes the label ["trade"] whatever follows it, and a
    word that is "not trade" in any mix of cases makes it ["not trade"]. *)
Theorem classify_trade_lenient (w : World) (txt pad word rest : text) :
  blank pad = true ->
  model w (trace w) (classify_prompt txt) = Returned (pad ++ word ++ rest) ->
  (map Str.lower_ascii word = u "trade" ->
     fst (classify_trade txt w) = Ok (u "trade"))
  /\ (map Str.lower_ascii word = u "not trade" ->
     fst (classify_trade txt w) = Ok (u "not trade")).
Proof.
  intros Hpad Hm. rewrite classify_trade_eq, Hm. simpl. split.
  - destruct word as [|c1 [|c2 [|c3 [|c4 [|c5 [|]]]]]]; try discriminate.
    intros [= H1 H2 H3 H4 H5]. simpl app.
    destruct (lower_ascii_letter _ _ H1) as [A1 S1]; [lia|].
    destruct (lower_ascii_letter _ _ H2) as [A2 S2]; [lia|].
    destruct (lower_ascii_letter _ _ H3) as [A3 S3]; [lia|].
    destruct (lower_ascii_letter _ _ H4) as [A4 S4]; [lia|].
    destruct (lower_ascii_letter _ _ H5) as [A5 S5]; [lia|].
    rewrite (strip_pad_cons _ _ _ Hpad S1).
    rewrite (rstrip_cons _ _ S2), (rstrip_cons _ _ S3),
      (rstrip_cons _ _ S4), (rstrip_cons _ _ S5).
    unfold Str.lower.
    rewrite !lower_from_ascii by done.
    rewrite H1, H2, H3, H4, H5. vm_compute. reflexivity.
  - destruct word as [|c1 word]; [discriminate|].
    intros [= H1 _]. simpl app.
    destruct (lower_ascii_letter _ _ H1) as [A1 S1]; [lia|].
    rewrite (strip_pad_cons _ _ _ Hpad S1).
    unfold Str.lower. rewrite lower_from_ascii by done.
    rewrite H1. vm_compute. reflexivity.
Qed.

(** An answer in capitals, after a no-break space and with a second line,
    counts. *)
Lemma classify_trade_lenient_witness :
  fst (classify_trade (u "BTO AAPL") Sample.loud_world) = Ok (u "trade").
Proof.
  apply (proj1 (classify_trade_lenient Sample.loud_world (u "BTO AAPL")
                  [160%N] (u "TRADE") Sample.second_line eq_refl eq_refl)).
  reflexivity.
Defined.

(* ===================================================================== *)
(** ** Further properties of the run *)
(* ===================================================================== *)




(** The events of any run, saving or not, raising or not: diagnostics and
    at most the one timeline request, then what the loop did, then at most
    the save and the closing line. *)
Lemma run_events w :
  exists head loop tail,
    emitted w (snd (run w)) = head ++ loop ++ tail
    /\ Forall (fun e => is_quiet e = true) head
    /\ Forall (loop_event (model w) (batch w)) loop
    /\ (tail = [] \/
        tail = [FileDump
                  (elements (persisted w ∪ list_to_set (ids_of (batch w))));
                Stdout MsgDone])
    /\ (count is_publish loop + size (persisted w)
        <= size (persisted w ∪ list_to_set (ids_of (batch w))))%nat
    /\ (count is_generate loop + 2 * size (persisted w)
        <= 2 * size (persisted w ∪ list_to_set (ids_of (batch w))))%nat.
Proof.
  assert (Hgrow : (size (persisted w)
                   <= size (persisted w ∪ list_to_set (ids_of (batch w))))%nat).
  { apply subseteq_size, union_subseteq_l. }
  destruct (fetch_yields_dec w) as [Hf|Hf].
  2:{ destruct (run_no_payload w Hf) as (evs & E & Q & _).
      exists evs, [], []. rewrite E, emitted_log, !app_nil_r, !count_nil.
      split; [done|]. split; [done|]. split; [constructor|].
      split; [by left|]. lia. }
  destruct (is_rth_total w) as [Ho|Hc].
  2:{ rewrite (run_gate_closed w Hc). eexists [_], [], [].
      rewrite !count_nil. cbn [snd]. rewrite emitted_log.
      split; [done|]. split; [by repeat constructor|]. split; [constructor|].
      split; [by left|]. lia. }
  exists [Stdout (MsgLoaded (size (persisted w))); TimelineGet].
  destruct (loop_returns_dec w) as [Hl|Hl].
  - destruct (run_saves w (conj Ho (conj Hf Hl))) as (evs & _ & E & F & P & G).
    eexists evs, _. rewrite E; cbn [snd]. rewrite emitted_store_log.
    split; [reflexivity|]. split; [by repeat constructor|].
    split; [done|]. split; [by right|]. lia.
  - destruct (run_loop_raises w Ho Hf Hl) as (evs & E & F & P & G & _).
    exists evs, []. rewrite E, app_nil_r; cbn [snd]. rewrite emitted_log.
    split; [reflexivity|]. split; [by repeat constructor|].
    split; [done|]. split; [by left|]. lia.
Qed.

Lemma run_events_counts p head loop tail
    (ids : list string) :
  (forall e, is_quiet e = true -> p e = false) ->
  p (FileDump ids) = false -> p (Stdout MsgDone) = false ->
  Forall (fun e => is_quiet e = true) head ->
  tail = [] \/ tail = [FileDump ids; Stdout MsgDone] ->
  count p (head ++ loop ++ tail) = count p loop.
Proof.
  intros Hq Hd Hm Q Ht. rewrite !count_app.
  rewrite (count_none p head).
  2:{ eapply Forall_impl; [exact Q|]. exact Hq. }
  rewrite (count_none p tail); [lia|].
  destruct Ht as [-> | ->]; by repeat constructor.
Qed.




(** X4: in any run, one that is cut short by an exception included, the
    number of publish requests is at most the number of ids of the fetched
    batch that were not on file, and the number of model calls at most
    twice that; in a run that saves, this number is the growth of the set
    on file. *)
Theorem run_call_budget (w : World) :
  (count is_publish (emitted w (snd (run w))) + size (persisted w)
   <= size (persisted w ∪ list_to_set (ids_of (batch w))))%nat
  /\ (count is_generate (emitted w (snd (run w))) + 2 * size (persisted w)
      <= 2 * size (persisted w ∪ list_to_set (ids_of (batch w))))%nat
  /\ (reaches_save w ->
      persisted (snd (run w)) = persisted w ∪ list_to_set (ids_of (batch w))).
Proof.
  destruct (run_events w) as (head & loop & tail & E & Q & F & T & P & G).
  rewrite E.
  rewrite (run_events_counts is_publish head loop tail _
             ltac:(by intros []) eq_refl eq_refl Q T) by done.
  rewrite (run_events_counts is_generate head loop tail _
             ltac:(by intros []) eq_refl eq_refl Q T) by done.
  split; [done|]. split; [done|].
  intros Hs. destruct (run_saves w Hs) as (evs & _ & E' & _).
  rewrite E'; cbn [snd]. by rewrite persisted_store, list_to_set_elements_L.
Qed.


(** X6: the file a saving run writes lists every id once, also when the
    file it read listed some twice, and it lists exactly the ids that were
    on file or in the batch. *)
Theorem run_saves_without_duplicates (w : World) (Hs : reaches_save w) :
  exists l,
    processed_file (snd (run w)) = Some l
    /\ NoDup l
    /\ length l = size (persisted (snd (run w)))
    /\ (forall i, i ∈ l <-> i ∈ persisted w \/ i ∈ ids_of (batch w)).
Proof.
  destruct (run_saves w Hs) as (evs & _ & E & _).
  eexists. rewrite E; cbn [snd]. split; [reflexivity|].
  split; [apply NoDup_elements|].
  rewrite persisted_store, list_to_set_elements_L. split; [done|].
  intros i. by rewrite elem_of_elements, elem_of_union, elem_of_list_to_set.
Qed.

(** The sample file reads [2; 2]; the file written has three entries. *)
Lemma run_saves_without_duplicates_witness :
  exists l,
    processed_file (snd (run Sample.world)) = Some l
    /\ NoDup l
    /\ length l = size (persisted (snd (run Sample.world)))
    /\ (forall i, i ∈ l <->
          i ∈ persisted Sample.world \/ i ∈ ids_of (batch Sample.world)).
Proof.
  exact (run_saves_without_duplicates Sample.world sample_reaches_save).
Defined.

(** X7: two saving runs in a row, the second on the file the first left:
    the file ends with what was on it at the start and the ids of both
    batches. *)
Theorem run_accumulates (w1 w2 : World) :
  reaches_save w1 -> reaches_save w2 ->
  processed_file w2 = processed_file (snd (run w1)) ->
  persisted (snd (run w2))
  = persisted w1 ∪ list_to_set (ids_of (batch w1))
                 ∪ list_to_set (ids_of (batch w2)).
Proof.
  intros H1 H2 Hfile.
  destruct (run_saves w1 H1) as (evs1 & _ & E1 & _).
  destruct (run_saves w2 H2) as (evs2 & _ & E2 & _).
  rewrite E2; cbn [snd]. rewrite persisted_store, list_to_set_elements_L.
  rewrite (persisted_ext _ _ Hfile), E1; cbn [snd].
  by rewrite persisted_store, list_to_set_elements_L.
Qed.

Lemma later_reaches_save : reaches_save Sample.later_world.
Proof.
  split; [vm_compute; reflexivity|]. split.
  - exists Sample.later_payload. by split.
  - eexists. vm_compute. reflexivity.
Defined.

(** The sample run, and a run the day after that meets posts 4 and 3. *)
Lemma run_accumulates_witness :
  persisted (snd (run Sample.later_world))
  = persisted Sample.world ∪ list_to_set (ids_of (batch Sample.world))
                           ∪ list_to_set (ids_of (batch Sample.later_world)).
Proof.
  apply (run_accumulates Sample.world Sample.later_world
           sample_reaches_save later_reaches_save).
  vm_compute. reflexivity.
Defined.




(* ===================================================================== *)
(** ** One post, branch by branch *)
(* ===================================================================== *)

(** X8: a new post without photo that the classifier does not label a
    trade (the model raises, or its answer does not start with "trade")
    costs exactly one model call: no rewrite is asked for, nothing is
    published, and the post is marked. *)
Theorem not_a_trade_stops_early incl (processed : gset string) t w
    (out : generated) :
  tweet_id t ∉ processed ->
  has_images t incl = false ->
  model w (trace w) (classify_prompt (tweet_text t)) = out ->
  (out = Raised \/
   exists answer, out = Returned answer /\
     Str.startswith (Str.lower (unicode_lower w) (Str.strip answer))
                    (u "trade") = false) ->
  fst (process_tweet incl processed t w) = Ok (processed ∪ {[tweet_id t]})
  /\ emitted w (snd (process_tweet incl processed t w))
     = [GenerateContent (classify_prompt (tweet_text t))]
       ++ match out with Raised => [Stdout MsgClassifyError] | Returned _ => [] end
       ++ [Stdout (MsgSkipNotTrade (tweet_id t))]
  /\ count is_generate (emitted w (snd (process_tweet incl processed t w))) = 1%nat
  /\ count is_publish (emitted w (snd (process_tweet incl processed t w))) = 0%nat.
Proof.
  intros Hnew Himg Hc Hout.
  rewrite (process_tweet_new _ _ _ _ Hnew Himg); simpl. rewrite Hc.
  destruct Hout as [->|(answer & -> & Hno)]; simpl.
  - rewrite emitted_log. by repeat split.
  - rewrite Hno; simpl. rewrite emitted_log. by repeat split.
Qed.

(** The sample model answers "Not a trade." about the post with the chart. *)
Lemma not_a_trade_stops_early_witness :
  fst (process_tweet Sample.no_media ∅ Sample.photo_tweet
         (Sample.with_model (Returned (u "Not a trade."))))
  = Ok (∅ ∪ {["3"%string]}).
Proof.
  eapply proj1,
    (not_a_trade_stops_early Sample.no_media ∅ Sample.photo_tweet
       (Sample.with_model (Returned (u "Not a trade.")))
       (Returned (u "Not a trade."))).
  - apply not_elem_of_empty.
  - reflexivity.
  - reflexivity.
  - right. eexists. split; reflexivity.
Defined.

(** X9: a new post without photo that is labelled a trade and whose
    rewrite is not blank is handed to the publisher exactly once, as the
    stripped rewrite and nothing else.  When the publisher answers, the
    post is marked whether the status is 201 or not, and only the
    diagnostics tell the two apart; when the request raises, the iteration
    ends with that exception right after the request. *)
Theorem trade_is_published_once incl (processed : gset string) t w
    (label answer : text) :
  let body := Str.strip answer in
  let asked := [GenerateContent (classify_prompt (tweet_text t));
                GenerateContent (rewrite_prompt (tweet_text t));
                Stdout (MsgPosting body)] in
  tweet_id t ∉ processed ->
  has_images t incl = false ->
  model w (trace w) (classify_prompt (tweet_text t)) = Returned label ->
  Str.startswith (Str.lower (unicode_lower w) (Str.strip label)) (u "trade")
    = true ->
  model w (trace w ++ [GenerateContent (classify_prompt (tweet_text t))])
        (rewrite_prompt (tweet_text t)) = Returned answer ->
  blank answer = false ->
  published (emitted w (snd (process_tweet incl processed t w))) = [body]
  /\ match tweets_api w (trace w ++ asked) body with
     | Replied reply =>
         fst (process_tweet incl processed t w)
           = Ok (processed ∪ {[tweet_id t]})
         /\ emitted w (snd (process_tweet incl processed t w))
            = asked ++ [TweetCreate body]
              ++ (if status_code reply =? 201
                  then [Stdout (MsgPosted (tweet_id t))]
                  else [Stdout (MsgPostError (response_text reply));
                        Stdout (MsgPostFailed (tweet_id t))])
     | Failed =>
         fst (process_tweet incl processed t w) = Raise RequestException
         /\ emitted w (snd (process_tweet incl processed t w))
            = asked ++ [TweetCreate body]
     end.
Proof.
  intros body asked Hnew Himg Hc Htrade Hr Hblank.
  assert (Hbody : Str.truthy body = true).
  { subst body. destruct (Str.strip answer) eqn:E; [|done].
    apply strip_blank in E. congruence. }
  rewrite (process_tweet_new _ _ _ _ Hnew Himg); simpl.
  rewrite Hc, Htrade, Hr. fold body. rewrite Hbody. fold asked.
  destruct (tweets_api w (trace w ++ asked) body) as [reply|]; simpl;
    rewrite emitted_log; [|by split].
  split; [|done].
  by destruct (status_code reply =? 201).
Qed.

(** The sample post goes out once, to a publisher that accepts it. *)
Lemma trade_is_published_once_witness :
  published (emitted Sample.accepting_world
               (snd (process_tweet Sample.with_photo {["2"%string]}
                       Sample.plain_tweet Sample.accepting_world)))
  = [Str.strip Sample.rewrite].
Proof.
  eapply proj1,
    (trade_is_published_once Sample.with_photo {["2"%string]}
       Sample.plain_tweet Sample.accepting_world (u " Trade
") Sample.rewrite).
  - intros H%elem_of_singleton. discriminate H.
  - reflexivity.
  - reflexivity.
  - reflexivity.
  - reflexivity.
  - reflexivity.
Defined.

(* ===================================================================== *)
(** ** The media filter and the gate, once more *)
(* ===================================================================== *)

Lemma existsb_perm {A} (f : A -> bool) (l l' : list A) :
  l ≡ₚ l' -> existsb f l = existsb f l'.
Proof.
  induction 1 as [|x l l' _ IH|x y l|l l' l'' _ IH1 _ IH2]; simpl.
  - done.
  - by rewrite IH.
  - by rewrite !orb_assoc, (orb_comm (f y)).
  - by rewrite IH1.
Qed.

(** X10: the verdict on a post depends on the media table only through the
    items the post refers to: items of other posts of the batch, photos or
    not, can be taken out of the table or put into it without changing
    it, and the order of the table does not matter. *)
Theorem has_images_local (i : string) (txt : text) (keys : list string)
    (ms ms' others : list MediaItem) :
  let t := {| tweet_id := i; tweet_text := txt;
              attachments := Some {| media_keys := Some keys |} |} in
  has_images t {| media := Some ms |}
  = has_images t {| media :=
      Some (filter (fun m => media_key m ∈ keys) ms) |}
  /\ (ms ≡ₚ ms' ->
      has_images t {| media := Some ms |}
      = has_images t {| media := Some ms' |})
  /\ ((forall m, m ∈ others -> media_key m ∉ keys) ->
      has_images t {| media := Some (ms ++ others) |}
      = has_images t {| media := Some ms |}).
Proof.
  intros t. unfold has_images; simpl.
  assert (Hother : forall l : list MediaItem,
            (forall m, m ∈ l -> media_key m ∉ keys) ->
            existsb (fun m => bool_decide (media_key m ∈ keys)
               && bool_decide (media_type m = Some "photo"%string)) l = false).
  { induction l as [|m l IH]; intros Hl; simpl; [done|].
    rewrite (bool_decide_eq_false_2 (media_key m ∈ keys)); simpl.
    - apply IH. intros m' Hm'. apply Hl. by right.
    - apply Hl. by left. }
  split; [|split].
  - induction ms as [|m ms IH]; simpl; [done|].
    rewrite filter_cons. destruct (decide (media_key m ∈ keys)) as [Hin|Hout].
    + simpl. by rewrite IH.
    + rewrite (bool_decide_eq_false_2 _ Hout). simpl. exact IH.
  - apply existsb_perm.
  - intros Hl. rewrite existsb_app, (Hother _ Hl). apply orb_false_r.
Qed.

(** The table of post 3 with a video put in front of the photo and a
    second video between them, read in another order. *)
Lemma has_images_local_witness :
  has_images {| tweet_id := "3"; tweet_text := u "chart";
                attachments := Some {| media_keys := Some ["7_1"%string] |} |}
             {| media := Some [Sample.video; Sample.video; Sample.photo] |}
  = has_images {| tweet_id := "3"; tweet_text := u "chart";
                  attachments := Some {| media_keys := Some ["7_1"%string] |} |}
               {| media := Some [Sample.video; Sample.photo; Sample.video] |}.
Proof.
  apply (proj1 (proj2 (has_images_local "3" (u "chart") ["7_1"%string]
                         [Sample.video; Sample.video; Sample.photo]
                         [Sample.video; Sample.photo; Sample.video] []))).
  apply perm_skip, perm_swap.
Defined.

(** X11: [is_rth] leaves the world as it is when it answers true and
    prints one line when it answers false: the weekend line on a Saturday
    or Sunday whatever the hour, the line with the time on a weekday; it
    never touches the state file, and days with the same weekday and time
    of day get the same answer. *)
Theorem is_rth_effects (w : World) :
  (fst (is_rth w) = Ok true -> snd (is_rth w) = w)
  /\ (fst (is_rth w) = Ok false ->
      snd (is_rth w)
      = log [Stdout (if 5 <=? weekday (clock w) then MsgWeekend
                     else MsgOutsideRTH (clock w))] w)
  /\ processed_file (snd (is_rth w)) = processed_file w
  /\ (forall w',
        valid_time (clock w) -> valid_time (clock w') ->
        weekday (clock w') = weekday (clock w) ->
        time_of_day (clock w') = time_of_day (clock w) ->
        fst (is_rth w') = fst (is_rth w)).
Proof.
  split; [|split; [|split]].
  - intros Ho. by rewrite (is_rth_open w Ho).
  - intros Hc. by rewrite (is_rth_closed w Hc).
  - destruct (is_rth_total w) as [Ho|Hc].
    + by rewrite (is_rth_open w Ho).
    + by rewrite (is_rth_closed w Hc).
  - intros w' Hv Hv' Hd Ht. rewrite !is_rth_answer, Hd. do 2 f_equal.
    apply eq_true_iff_eq.
    rewrite !andb_true_iff.
    rewrite (le_open_time _ Hv), (le_close_time _ Hv).
    rewrite (le_open_time _ Hv'), (le_close_time _ Hv'). by rewrite Ht.
Qed.

(** Monday 2024-01-01 and Monday 2024-12-30 at 10:00 get the same answer. *)
Lemma is_rth_effects_witness :
  fst (is_rth (at_time (Datetime.mk 2024 12 30 10 0 0 0) Sample.world))
  = fst (is_rth Sample.world).
Proof.
  apply (proj2 (proj2 (proj2 (is_rth_effects Sample.world)))).
  - exact sample_valid_time.
  - repeat split; simpl; lia.
  - reflexivity.
  - reflexivity.
Defined.

(* ===================================================================== *)
(** ** Scenarios *)
(* ===================================================================== *)

(** The sample run: post 1 is classified, rewritten and offered to the
    publisher once (which refuses), post 3 is skipped for its photo, the
    second copy of post 1 is skipped as seen, and 1, 2, 3 are on file. *)
Example sample_run :
  fst (run Sample.world) = Ok tt
  /\ count is_generate (emitted Sample.world (snd (run Sample.world))) = 2%nat
  /\ count is_publish (emitted Sample.world (snd (run Sample.world))) = 1%nat
  /\ count is_save (emitted Sample.world (snd (run Sample.world))) = 1%nat
  /\ persisted (snd (run Sample.world)) = list_to_set ["1"; "2"; "3"]%string.
Proof. vm_compute. repeat split. Qed.

(** When the rewrite call raises, nothing is published and 1 is on file all the same. *)
Example sample_run_rewrite_raises :
  let w := Sample.with_model Raised in
  count is_publish (emitted w (snd (run w))) = 0%nat
  /\ persisted (snd (run w)) = list_to_set ["1"; "2"; "3"]%string.
Proof. vm_compute. repeat split. Qed.

(** On a Saturday the run prints one line and leaves the file as it is. *)
Example sample_run_weekend :
  let w := at_time Sample.saturday_noon Sample.world in
  emitted w (snd (run w)) = [Stdout MsgWeekend]
  /\ processed_file (snd (run w)) = processed_file w.
Proof. vm_compute. repeat split. Qed.

(** Bodies under status 200 that are no payload: the run returns on the
    falsy ones and raises on the others, and writes no file. *)
Example sample_run_bodies :
  let reply_with body :=
    Replied {| status_code := 200; response_text := []; json := body |} in
  map (fun body => fst (run (Sample.with_timeline (reply_with body))))
      [Json JNull; Json (JArray 0); Json (JNumber true); Json (JString []);
       Json (JBool false); Json (JArray 2); Json (JString (u "busy")); NotJson]
  = [Ok tt; Ok tt; Ok tt; Ok tt; Ok tt;
     Raise AttributeError; Raise AttributeError; Raise JSONDecodeError]
  /\ fst (run (Sample.with_timeline Failed)) = Raise RequestException.
Proof. vm_compute. repeat split. Qed.

(** [strip], [lower] and [startswith] on a few answers: a no-break space
    and a line separator are stripped like a blank, and a capital E with
    acute accent is lower-cased by the database. *)
Example sample_answers :
  Str.strip ([160; 8232]%N ++ u "  Trade." ++ [10; 12288]%N) = u "Trade."
  /\ Str.lower Sample.latin1_lower (u "Trade." ++ [201]%N) = u "trade." ++ [233]%N
  /\ Str.startswith (u "trade.") (u "trade") = true
  /\ Str.startswith (u "not trade") (u "trade") = false
  /\ Str.strip [10; 160; 32]%N = [].
Proof. vm_compute. repeat split. Qed.

(** [weekday] on days of other years, a leap day and two century years
    among them: Wednesday 2026-11-04, Tuesday 2000-02-29, Thursday
    1970-01-01, Monday 2100-03-01, Thursday 1900-03-01, Sunday 2023-12-31. *)
Example sample_weekdays :
  map (fun '(y, m, d) => weekday (Datetime.mk y m d 12 0 0 0))
      [(2026, 11, 4); (2000, 2, 29); (1970, 1, 1);
       (2100, 3, 1); (1900, 3, 1); (2023, 12, 31)]
  = [2; 1; 3; 0; 3; 6].
Proof. reflexivity. Qed.
